(** * generichttp: typed JSON handlers over net/http

    A shallow embedding of [handler.go] (package [generichttp]) and of the
    demo server's [addHandler], together with the parts of the Go standard
    library the package calls: [io.LimitReader], the streaming
    [json.Decoder], [json.Encoder] and the [http.ResponseWriter] interface.

    Conventions.
    - A Go [int] is a [Z]; where the code does arithmetic the 64-bit
      wrap-around is written out ([wrap64]).
    - A byte slice is a [list ascii]; a Go [string] is a [string].
    - A pointer that may be nil is an [option].
    - A nil-pointer dereference is the outcome [Panic]. *)

From Stdlib Require Import ZArith String Ascii List Lia Bool DecimalString.
From Stdlib Require DecimalFacts DecimalPos.
Import ListNotations.

#[local] Set Warnings "-register-all".

Local Open Scope Z_scope.

Definition bytes := list ascii.

Definition bytes_of (s : string) : bytes := list_ascii_of_string s.

(** The double quote character and a quoted string literal. *)
Definition dquote : ascii := "034"%char.

Definition quoted (s : string) : string :=
  String dquote (s ++ String dquote EmptyString).

Definition newline : ascii := "010"%char.

(** [lo <= c <= hi] on bytes. *)
Definition in_range (lo hi c : ascii) : bool :=
  ((N_of_ascii lo <=? N_of_ascii c) && (N_of_ascii c <=? N_of_ascii hi))%N.

(** Two's complement wrap-around of a Go [int] (64 bits). *)
Definition wrap64 (z : Z) : Z := (z + 2 ^ 63) mod 2 ^ 64 - 2 ^ 63.

(** ** Package io *)
Module io.

Inductive error := EOF | ErrUnexpectedEOF.

(** [Read s n] is one call [s.Read(p)] with [len(p) = n]: the bytes
    stored into [p], the error returned, and the reader afterwards. *)
Class Reader (S : Type) := Read : S -> nat -> bytes * option error * S.

(** [io.LimitedReader]: [R] is the underlying reader, [N] the number of
    bytes remaining. *)
Record LimitedReader (S : Type) := mkLimited { R : S; N : Z }.
Arguments mkLimited {S}.
Arguments R {S}.
Arguments N {S}.

Definition LimitReader {S : Type} (r : S) (n : Z) : LimitedReader S :=
  mkLimited r n.

(** [func (l *LimitedReader) Read(p []byte)]:
    [if l.N <= 0 { return 0, EOF }];
    [if int64(len(p)) > l.N { p = p[0:l.N] }];
    [n, err = l.R.Read(p)]; [l.N -= int64(n)]. *)
Definition LimitedReader_Read {S : Type} `{Reader S}
    (l : LimitedReader S) (len_p : nat) : bytes * option error * LimitedReader S :=
  if N l <=? 0 then ([], Some EOF, l)
  else
    let len_p := if Z.of_nat len_p >? N l then Z.to_nat (N l) else len_p in
    let '(p, err, r') := Read (R l) len_p in
    (p, err, mkLimited r' (N l - Z.of_nat (length p))).

#[global] Instance LimitedReader_Reader {S : Type} `{Reader S} :
  Reader (LimitedReader S) := LimitedReader_Read.

End io.

(** ** Package net/http *)
Module http.

Definition StatusOK : Z := 200.
Definition StatusBadRequest : Z := 400.
Definition StatusInternalServerError : Z := 500.

(** The body stream of an incoming request: the bytes that have not been
    read yet, in the pieces in which the transport delivers them. *)
Record body := mkBody { pending : list bytes }.

(** Every byte still to come. *)
Definition content (b : body) : bytes := concat (pending b).

(** One [Read] returns at most [n] bytes of the piece at the front; the
    end of the stream is reported by a separate call. *)
Definition body_Read (b : body) (n : nat) : bytes * option io.error * body :=
  match pending b with
  | [] => ([], Some io.EOF, b)
  | c :: cs =>
      (firstn n c, None,
       mkBody (match skipn n c with [] => cs | rest => rest :: cs end))
  end.

#[global] Instance body_Reader : io.Reader body := body_Read.

(** [http.Request], with the fields the package and its handlers see. *)
Record Request := mkRequest { Method : string; URL : string; Body : body }.

(** [http.ResponseWriter] is an interface; the response sink is modelled
    by the calls it has received, oldest first. *)
Inductive call :=
| SetHeader (key value : string)     (* w.Header().Set(key, value) *)
| WriteHeader (statusCode : Z)       (* w.WriteHeader(statusCode) *)
| Write (p : bytes).                 (* w.Write(p) *)

Definition ResponseWriter := list call.

Definition Header_Set (w : ResponseWriter) (key value : string) : ResponseWriter :=
  w ++ [SetHeader key value].

Definition do_WriteHeader (w : ResponseWriter) (code : Z) : ResponseWriter :=
  w ++ [WriteHeader code].

Definition do_Write (w : ResponseWriter) (p : bytes) : ResponseWriter :=
  w ++ [Write p].

(** What a client observes, as net/http commits a response: the status
    line is that of the first [WriteHeader] (a [Write] that comes first
    commits 200), the headers are those set before that point, the body
    is every [Write] in order. *)
Fixpoint status (w : ResponseWriter) : option Z :=
  match w with
  | [] => None
  | WriteHeader c :: _ => Some c
  | Write _ :: _ => Some StatusOK
  | SetHeader _ _ :: w' => status w'
  end.

Fixpoint header_from (cur : option string) (key : string) (w : ResponseWriter)
  : option string :=
  match w with
  | SetHeader k v :: w' =>
      header_from (if String.eqb k key then Some v else cur) key w'
  | _ => cur
  end.

Definition header (key : string) (w : ResponseWriter) : option string :=
  header_from None key w.

Fixpoint written (w : ResponseWriter) : bytes :=
  match w with
  | [] => []
  | Write p :: w' => p ++ written w'
  | _ :: w' => written w'
  end.

End http.

(** ** Package unicode/utf8 *)
Module utf8.

Local Open Scope N_scope.

Definition RuneError : N := 65533.     (* U+FFFD *)
Definition MaxRune : N := 1114111.     (* U+10FFFF *)

(** The six low bits of a continuation byte. *)
Definition low6 (c : ascii) : N := N.land (N_of_ascii c) 63.

Definition between (lo hi : N) (c : ascii) : bool :=
  (lo <=? N_of_ascii c) && (N_of_ascii c <=? hi).

(** [utf8.DecodeRune(p)]: the rune at the front of [p] and its width;
    [(RuneError, 0)] on empty input, [(RuneError, 1)] on an invalid
    encoding. *)
Definition DecodeRune (p : bytes) : N * nat :=
  match p with
  | [] => (RuneError, 0%nat)
  | c0 :: rest =>
      let b0 := N_of_ascii c0 in
      if b0 <? 128 then (b0, 1%nat)
      else if (194 <=? b0) && (b0 <=? 223) then
        match rest with
        | c1 :: _ =>
            if between 128 191 c1
            then (N.lor (N.shiftl (N.land b0 31) 6) (low6 c1), 2%nat)
            else (RuneError, 1%nat)
        | _ => (RuneError, 1%nat)
        end
      else if (224 <=? b0) && (b0 <=? 239) then
        let lo := if b0 =? 224 then 160 else 128 in
        let hi := if b0 =? 237 then 159 else 191 in
        match rest with
        | c1 :: c2 :: _ =>
            if between lo hi c1 && between 128 191 c2
            then (N.lor (N.shiftl (N.land b0 15) 12)
                    (N.lor (N.shiftl (low6 c1) 6) (low6 c2)), 3%nat)
            else (RuneError, 1%nat)
        | _ => (RuneError, 1%nat)
        end
      else if (240 <=? b0) && (b0 <=? 244) then
        let lo := if b0 =? 240 then 144 else 128 in
        let hi := if b0 =? 244 then 143 else 191 in
        match rest with
        | c1 :: c2 :: c3 :: _ =>
            if between lo hi c1 && between 128 191 c2 && between 128 191 c3
            then (N.lor (N.shiftl (N.land b0 7) 18)
                    (N.lor (N.shiftl (low6 c1) 12)
                       (N.lor (N.shiftl (low6 c2) 6) (low6 c3))), 4%nat)
            else (RuneError, 1%nat)
        | _ => (RuneError, 1%nat)
        end
      else (RuneError, 1%nat)
  end.

Definition isSurrogate (r : N) : bool := (55296 <=? r) && (r <? 57344).

Definition contByte (r : N) (shift : N) : ascii :=
  ascii_of_N (N.lor 128 (N.land (N.shiftr r shift) 63)).

(** [utf8.AppendRune(nil, r)]. *)
Definition EncodeRune (r : N) : bytes :=
  let r := if isSurrogate r || (MaxRune <? r) then RuneError else r in
  if r <? 128 then [ascii_of_N r]
  else if r <? 2048 then
    [ascii_of_N (N.lor 192 (N.shiftr r 6)); contByte r 0]
  else if r <? 65536 then
    [ascii_of_N (N.lor 224 (N.shiftr r 12)); contByte r 6; contByte r 0]
  else
    [ascii_of_N (N.lor 240 (N.shiftr r 18)); contByte r 12; contByte r 6;
     contByte r 0].

End utf8.

(** ** Package encoding/json: the scanner

    [scanner.go] is a state machine fed one byte at a time.  [step] names
    the transition function ([s.step] in Go), [parseState] is the stack of
    enclosing composite values, innermost first. *)
Module json.

Inductive stepFn :=
| stateBeginValueOrEmpty | stateBeginValue
| stateBeginStringOrEmpty | stateBeginString
| stateEndValue | stateEndTop
| stateInString | stateInStringEsc
| stateInStringEscU | stateInStringEscU1 | stateInStringEscU12
| stateInStringEscU123
| stateNeg | state1 | state0 | stateDot | stateDot0
| stateE | stateESign | stateE0
| stateT | stateTr | stateTru
| stateF | stateFa | stateFal | stateFals
| stateN | stateNu | stateNul
| stateError.

Inductive parseKind := parseObjectKey | parseObjectValue | parseArrayValue.

Inductive scanCode :=
| scanContinue | scanBeginLiteral | scanBeginObject | scanObjectKey
| scanObjectValue | scanEndObject | scanBeginArray | scanArrayValue
| scanEndArray | scanSkipSpace | scanEnd | scanError.

Record scanner := mkScanner {
  step : stepFn;
  endTop : bool;
  parseState : list parseKind;
  err : bool                     (* s.err != nil *)
}.

Definition maxNestingDepth : Z := 10000.

(** [s.reset()] on a new scanner. *)
Definition reset : scanner := mkScanner stateBeginValue false [] false.

Definition set_step (s : scanner) (f : stepFn) : scanner :=
  mkScanner f (endTop s) (parseState s) (err s).

(** [s.error(c, context)]. *)
Definition error (s : scanner) : scanner * scanCode :=
  (mkScanner stateError (endTop s) (parseState s) true, scanError).

Definition continue_with (s : scanner) (f : stepFn) : scanner * scanCode :=
  (set_step s f, scanContinue).

Definition isSpace (c : ascii) : bool :=
  Ascii.eqb c " " || Ascii.eqb c "009" || Ascii.eqb c "013" || Ascii.eqb c "010".

Definition isDigit (c : ascii) : bool := in_range "0" "9" c.

Definition isHex (c : ascii) : bool :=
  in_range "0" "9" c || in_range "a" "f" c || in_range "A" "F" c.

(** [s.pushParseState(c, newParseState, successState)], after [s.step]
    has been set to [next]. *)
Definition pushParseState (s : scanner) (next : stepFn) (k : parseKind)
    (success : scanCode) : scanner * scanCode :=
  let s' := mkScanner next (endTop s) (k :: parseState s) (err s) in
  if Z.of_nat (length (parseState s')) <=? maxNestingDepth then (s', success)
  else error s'.

(** [s.popParseState()]. *)
Definition popParseState (s : scanner) : scanner :=
  match tl (parseState s) with
  | [] => mkScanner stateEndTop true [] (err s)
  | rest => mkScanner stateEndValue (endTop s) rest (err s)
  end.

(** Overwrite the innermost parse state ([s.parseState[n-1] = k]). *)
Definition set_top (s : scanner) (k : parseKind) : scanner :=
  mkScanner (step s) (endTop s) (k :: tl (parseState s)) (err s).

Definition do_stateEndTop (s : scanner) (c : ascii) : scanner * scanCode :=
  if isSpace c then (s, scanEnd) else (fst (error s), scanEnd).

Definition do_stateEndValue (s : scanner) (c : ascii) : scanner * scanCode :=
  match parseState s with
  | [] =>
      do_stateEndTop (mkScanner stateEndTop true (parseState s) (err s)) c
  | ps :: _ =>
      if isSpace c then (set_step s stateEndValue, scanSkipSpace)
      else
        match ps with
        | parseObjectKey =>
            if Ascii.eqb c ":" then
              (set_step (set_top s parseObjectValue) stateBeginValue,
               scanObjectKey)
            else error s
        | parseObjectValue =>
            if Ascii.eqb c "," then
              (set_step (set_top s parseObjectKey) stateBeginString,
               scanObjectValue)
            else if Ascii.eqb c "}" then (popParseState s, scanEndObject)
            else error s
        | parseArrayValue =>
            if Ascii.eqb c "," then (set_step s stateBeginValue, scanArrayValue)
            else if Ascii.eqb c "]" then (popParseState s, scanEndArray)
            else error s
        end
  end.

Definition do_stateBeginValue (s : scanner) (c : ascii) : scanner * scanCode :=
  if isSpace c then (s, scanSkipSpace)
  else if Ascii.eqb c "{" then
    pushParseState s stateBeginStringOrEmpty parseObjectKey scanBeginObject
  else if Ascii.eqb c "[" then
    pushParseState s stateBeginValueOrEmpty parseArrayValue scanBeginArray
  else if Ascii.eqb c dquote then (set_step s stateInString, scanBeginLiteral)
  else if Ascii.eqb c "-" then (set_step s stateNeg, scanBeginLiteral)
  else if Ascii.eqb c "0" then (set_step s state0, scanBeginLiteral)
  else if Ascii.eqb c "t" then (set_step s stateT, scanBeginLiteral)
  else if Ascii.eqb c "f" then (set_step s stateF, scanBeginLiteral)
  else if Ascii.eqb c "n" then (set_step s stateN, scanBeginLiteral)
  else if in_range "1" "9" c then (set_step s state1, scanBeginLiteral)
  else error s.

Definition do_stateBeginValueOrEmpty (s : scanner) (c : ascii) : scanner * scanCode :=
  if isSpace c then (s, scanSkipSpace)
  else if Ascii.eqb c "]" then do_stateEndValue s c
  else do_stateBeginValue s c.

Definition do_stateBeginString (s : scanner) (c : ascii) : scanner * scanCode :=
  if isSpace c then (s, scanSkipSpace)
  else if Ascii.eqb c dquote then (set_step s stateInString, scanBeginLiteral)
  else error s.

Definition do_stateBeginStringOrEmpty (s : scanner) (c : ascii) : scanner * scanCode :=
  if isSpace c then (s, scanSkipSpace)
  else if Ascii.eqb c "}" then do_stateEndValue (set_top s parseObjectValue) c
  else do_stateBeginString s c.

Definition do_stateInString (s : scanner) (c : ascii) : scanner * scanCode :=
  if Ascii.eqb c dquote then continue_with s stateEndValue
  else if Ascii.eqb c "\" then continue_with s stateInStringEsc
  else if (N_of_ascii c <? 32)%N then error s
  else (s, scanContinue).

Definition do_stateInStringEsc (s : scanner) (c : ascii) : scanner * scanCode :=
  if Ascii.eqb c "b" || Ascii.eqb c "f" || Ascii.eqb c "n" || Ascii.eqb c "r"
     || Ascii.eqb c "t" || Ascii.eqb c "\" || Ascii.eqb c "/"
     || Ascii.eqb c dquote
  then continue_with s stateInString
  else if Ascii.eqb c "u" then continue_with s stateInStringEscU
  else error s.

(** The four [\u] hexadecimal digit states share their shape. *)
Definition do_hex (next : stepFn) (s : scanner) (c : ascii) : scanner * scanCode :=
  if isHex c then continue_with s next else error s.

Definition do_state0 (s : scanner) (c : ascii) : scanner * scanCode :=
  if Ascii.eqb c "." then continue_with s stateDot
  else if Ascii.eqb c "e" || Ascii.eqb c "E" then continue_with s stateE
  else do_stateEndValue s c.

Definition do_state1 (s : scanner) (c : ascii) : scanner * scanCode :=
  if isDigit c then continue_with s state1 else do_state0 s c.

Definition do_stateNeg (s : scanner) (c : ascii) : scanner * scanCode :=
  if Ascii.eqb c "0" then continue_with s state0
  else if in_range "1" "9" c then continue_with s state1
  else error s.

Definition do_stateDot (s : scanner) (c : ascii) : scanner * scanCode :=
  if isDigit c then continue_with s stateDot0 else error s.

Definition do_stateDot0 (s : scanner) (c : ascii) : scanner * scanCode :=
  if isDigit c then (s, scanContinue)
  else if Ascii.eqb c "e" || Ascii.eqb c "E" then continue_with s stateE
  else do_stateEndValue s c.

Definition do_stateESign (s : scanner) (c : ascii) : scanner * scanCode :=
  if isDigit c then continue_with s stateE0 else error s.

Definition do_stateE (s : scanner) (c : ascii) : scanner * scanCode :=
  if Ascii.eqb c "+" || Ascii.eqb c "-" then continue_with s stateESign
  else do_stateESign s c.

Definition do_stateE0 (s : scanner) (c : ascii) : scanner * scanCode :=
  if isDigit c then (s, scanContinue) else do_stateEndValue s c.

(** The states inside [true], [false] and [null] expect one letter. *)
Definition do_letter (want : ascii) (next : stepFn) (s : scanner) (c : ascii)
  : scanner * scanCode :=
  if Ascii.eqb c want then continue_with s next else error s.

(** [s.step(s, c)]. *)
Definition scan_step (s : scanner) (c : ascii) : scanner * scanCode :=
  match step s with
  | stateBeginValueOrEmpty => do_stateBeginValueOrEmpty s c
  | stateBeginValue => do_stateBeginValue s c
  | stateBeginStringOrEmpty => do_stateBeginStringOrEmpty s c
  | stateBeginString => do_stateBeginString s c
  | stateEndValue => do_stateEndValue s c
  | stateEndTop => do_stateEndTop s c
  | stateInString => do_stateInString s c
  | stateInStringEsc => do_stateInStringEsc s c
  | stateInStringEscU => do_hex stateInStringEscU1 s c
  | stateInStringEscU1 => do_hex stateInStringEscU12 s c
  | stateInStringEscU12 => do_hex stateInStringEscU123 s c
  | stateInStringEscU123 => do_hex stateInString s c
  | stateNeg => do_stateNeg s c
  | state1 => do_state1 s c
  | state0 => do_state0 s c
  | stateDot => do_stateDot s c
  | stateDot0 => do_stateDot0 s c
  | stateE => do_stateE s c
  | stateESign => do_stateESign s c
  | stateE0 => do_stateE0 s c
  | stateT => do_letter "r" stateTr s c
  | stateTr => do_letter "u" stateTru s c
  | stateTru => do_letter "e" stateEndValue s c
  | stateF => do_letter "a" stateFa s c
  | stateFa => do_letter "l" stateFal s c
  | stateFal => do_letter "s" stateFals s c
  | stateFals => do_letter "e" stateEndValue s c
  | stateN => do_letter "u" stateNu s c
  | stateNu => do_letter "l" stateNul s c
  | stateNul => do_letter "l" stateEndValue s c
  | stateError => (s, scanError)
  end.

(** [nonSpace(b)]: some byte of [b] is not white space. *)
Definition nonSpace (b : bytes) : bool := existsb (fun c => negb (isSpace c)) b.

(** ** Package encoding/json: the streaming decoder

    [stream.go].  A [Decoder] reads from [r] into [buf] (of capacity
    [cap]) and feeds the bytes to [scan] as they arrive. *)

Inductive DecodeError :=
| ReadError (e : io.error)      (* io.EOF, io.ErrUnexpectedEOF, ... *)
| SyntaxError
| UnmarshalTypeError.

Record Decoder (S : Type) := mkDecoder {
  r : S;
  buf : bytes;
  cap : nat;
  scan : scanner
}.
Arguments mkDecoder {S}.
Arguments r {S}.
Arguments buf {S}.
Arguments cap {S}.
Arguments scan {S}.

Definition NewDecoder {S : Type} (rd : S) : Decoder S :=
  mkDecoder rd [] 0 reset.

Definition minRead : nat := 512.

(** [dec.refill()] of a decoder that has handed out no value yet
    ([dec.scanp = 0]): grow the buffer when fewer than [minRead] bytes
    are free, then read once into the free part.  Returns the bytes
    read with the error of the read. *)
Definition refill {S : Type} `{io.Reader S} (dec : Decoder S)
  : bytes * option io.error * Decoder S :=
  let cap' :=
    if (cap dec - length (buf dec) <? minRead)%nat
    then (2 * cap dec + minRead)%nat else cap dec in
  let '(p, e, r') := io.Read (r dec) (cap' - length (buf dec)) in
  (p, e, mkDecoder r' (buf dec ++ p) cap' (scan dec)).

(** The inner loop of [readValue] over the bytes [p] not scanned yet. *)
Inductive scanned :=
| ValueEnds (n : nat)        (* [break Input] with [n] of the bytes in the value *)
| ScanFails                  (* [case scanError] *)
| NeedMore (s : scanner).    (* every byte scanned, the value goes on *)

Definition advance (res : scanned) : scanned :=
  match res with
  | ValueEnds n => ValueEnds (S n)
  | other => other
  end.

Definition isEnd (code : scanCode) : bool :=
  match code with scanEnd => true | _ => false end.

Fixpoint scanBuffer (s : scanner) (p : bytes) : scanned :=
  match p with
  | [] => NeedMore s
  | c :: p' =>
      let '(s1, code) := scan_step s c in
      match code with
      | scanEnd => ValueEnds 0
      | scanEndObject | scanEndArray =>
          let '(s2, code2) := do_stateEndValue s1 " " in
          if isEnd code2 then ValueEnds 1 else advance (scanBuffer s2 p')
      | scanError => ScanFails
      | _ => advance (scanBuffer s1 p')
      end
  end.

Inductive readResult :=
| ValueOfLength (n : nat)         (* the value is [buf[0:n]] *)
| ReadFails (e : DecodeError).

(** [dec.readValue()].  Each round is one [refill] and the scan of what
    it brought; the error of the read is looked at after the scan.
    [fuel] bounds the number of rounds. *)
Fixpoint readValue {S : Type} `{io.Reader S} (fuel : nat) (dec : Decoder S)
  : option (readResult * Decoder S) :=
  match fuel with
  | O => None
  | S fuel' =>
      let '(p, e, dec1) := refill dec in
      match scanBuffer (scan dec) p with
      | ValueEnds n => Some (ValueOfLength (length (buf dec) + n), dec1)
      | ScanFails => Some (ReadFails SyntaxError, dec1)
      | NeedMore s' =>
          let dec2 := mkDecoder (r dec1) (buf dec1) (cap dec1) s' in
          match e with
          | None => readValue fuel' dec2
          | Some io.EOF =>
              if isEnd (snd (scan_step s' " ")) then
                Some (ValueOfLength (length (buf dec2)), dec2)
              else if nonSpace (buf dec2) then
                Some (ReadFails (ReadError io.ErrUnexpectedEOF), dec2)
              else Some (ReadFails (ReadError io.EOF), dec2)
          | Some e' => Some (ReadFails (ReadError e'), dec2)
          end
      end
  end.

(** How a value of type [T] is filled from the text of one JSON value
    that the scanner has accepted ([d.value] on a [T]): the value
    afterwards and the saved error, if any.  [zero] is [new(T)]. *)
Class Unmarshaler (T : Type) := {
  zero : T;
  unmarshalInto : bytes -> T -> T * option DecodeError
}.

Fixpoint skipSpace (b : bytes) : bytes :=
  match b with
  | c :: b' => if isSpace c then skipSpace b' else b
  | [] => []
  end.

(** The text of an accepted value is the literal [null] when its first
    byte after white space is [n] ([isNull] in [literalStore]). *)
Definition isNull (text : bytes) : bool :=
  match skipSpace text with
  | "n"%char :: _ => true
  | _ => false
  end.

(** [d.unmarshal(v)] on a [v] of type [**T]: the literal [null] sets the
    pointer to nil; any other value allocates the pointer when it is nil
    and decodes into the pointee. *)
Definition unmarshal {T : Type} `{Unmarshaler T} (text : bytes) (p : option T)
  : option T * option DecodeError :=
  if isNull text then (None, None)
  else
    let '(v, e) := unmarshalInto text (match p with Some v => v | None => zero end) in
    (Some v, e).

(** [dec.Decode(v)] with [v] pointing to a [*T] that holds [p]: the
    error returned, the decoder and the [*T] afterwards. *)
Definition Decode {S T : Type} `{io.Reader S} `{Unmarshaler T}
    (fuel : nat) (dec : Decoder S) (p : option T)
  : option (option DecodeError * Decoder S * option T) :=
  match readValue fuel dec with
  | None => None
  | Some (ReadFails e, dec') => Some (Some e, dec', p)
  | Some (ValueOfLength n, dec') =>
      let '(p', e) := unmarshal (firstn n (buf dec')) p in
      Some (e, dec', p')
  end.

(** ** Package encoding/json: values and the encoder

    [json.Marshal] and the decoding of a scanned text work by
    reflection on the Go type.  Here a Go value goes through the syntax
    tree of its JSON text: a [Marshaler] instance says which tree a
    value encodes to (or that the type cannot be encoded), and [encode]
    prints the tree as [encode.go] does, compactly and with HTML
    escaping on. *)

Inductive value :=
| Null
| Bool (b : bool)
| Number (literal : string)
| Str (s : string)
| Array (elements : list value)
| Object (members : list (string * value)).

Definition hexDigit (n : N) : ascii :=
  match n with
  | 10%N => "a" | 11%N => "b" | 12%N => "c"
  | 13%N => "d" | 14%N => "e" | 15%N => "f"
  | _ => ascii_of_N (48 + n)
  end.

(** [htmlSafeSet[b]] for [b < utf8.RuneSelf]. *)
Definition htmlSafe (c : ascii) : bool :=
  (32 <=? N_of_ascii c)%N
  && negb (Ascii.eqb c dquote || Ascii.eqb c "\" || Ascii.eqb c "<"
           || Ascii.eqb c ">" || Ascii.eqb c "&").

(** The escape of one byte below [utf8.RuneSelf] that is not HTML safe
    (the short forms for backspace and form feed are those of Go 1.22;
    earlier releases print them as [\u0008] and [\u000c]). *)
Definition escapeByte (c : ascii) : bytes :=
  if Ascii.eqb c "\" || Ascii.eqb c dquote then ["\"%char; c]
  else if Ascii.eqb c "008" then bytes_of "\b"
  else if Ascii.eqb c "012" then bytes_of "\f"
  else if Ascii.eqb c "010" then bytes_of "\n"
  else if Ascii.eqb c "013" then bytes_of "\r"
  else if Ascii.eqb c "009" then bytes_of "\t"
  else bytes_of "\u00"
       ++ [hexDigit (N.shiftr (N_of_ascii c) 4); hexDigit (N.land (N_of_ascii c) 15)].

(** The loop of [appendString(dst, src, true)]; every round consumes at
    least one byte of [src], [fuel] counts the rounds. *)
Fixpoint appendString_loop (fuel : nat) (src : bytes) : bytes :=
  match fuel, src with
  | O, _ | _, [] => []
  | S fuel', c :: rest =>
      if (N_of_ascii c <? 128)%N then
        (if htmlSafe c then [c] else escapeByte c) ++ appendString_loop fuel' rest
      else
        let '(rune, size) := utf8.DecodeRune (firstn 4 src) in
        if (rune =? utf8.RuneError)%N && (size =? 1)%nat then
          bytes_of "\ufffd" ++ appendString_loop fuel' rest
        else if (rune =? 8232)%N || (rune =? 8233)%N then
          bytes_of "\u202" ++ [hexDigit (N.land rune 15)]
          ++ appendString_loop fuel' (skipn size src)
        else firstn size src ++ appendString_loop fuel' (skipn size src)
  end.

Definition appendString (src : string) : bytes :=
  let b := bytes_of src in
  [dquote] ++ appendString_loop (length b) b ++ [dquote].

Fixpoint join (sep : bytes) (parts : list bytes) : bytes :=
  match parts with
  | [] => []
  | [p] => p
  | p :: ps => p ++ sep ++ join sep ps
  end.

Fixpoint encode (v : value) : bytes :=
  match v with
  | Null => bytes_of "null"
  | Bool true => bytes_of "true"
  | Bool false => bytes_of "false"
  | Number literal => bytes_of literal
  | Str s => appendString s
  | Array elements =>
      bytes_of "[" ++ join (bytes_of ",") (map encode elements) ++ bytes_of "]"
  | Object members =>
      bytes_of "{"
      ++ join (bytes_of ",")
           (map (fun m => appendString (fst m) ++ bytes_of ":" ++ encode (snd m))
              members)
      ++ bytes_of "}"
  end.

(** [strconv.AppendInt(b, n, 10)]. *)
Definition itoa (n : Z) : string := NilZero.string_of_int (Z.to_int n).

(** The syntax tree a Go value of type [W] encodes to; [None] when
    [json.Marshal] returns an error (an unsupported type or value). *)
Class Marshaler (W : Type) := marshal : W -> option value.

(** [json.NewEncoder(w).Encode(v)]: nothing is written when marshalling
    fails; otherwise the text and a newline go out in one [Write]. *)
Definition Encode {W : Type} `{Marshaler W} (w : http.ResponseWriter) (v : W)
  : http.ResponseWriter :=
  match marshal v with
  | None => w
  | Some tree => http.do_Write w (encode tree ++ [newline])
  end.

(** ** Package encoding/json: reading a scanned text

    [decode.go] walks the text of a value the scanner has accepted and
    stores into the Go value by reflection.  The walk is modelled by
    [parse], which rebuilds the syntax tree; an [Unmarshaler] instance
    then stores the tree into its type. *)

Definition hexValue (c : ascii) : option N :=
  if in_range "0" "9" c then Some (N_of_ascii c - 48)%N
  else if in_range "a" "f" c then Some (N_of_ascii c - 87)%N
  else if in_range "A" "F" c then Some (N_of_ascii c - 55)%N
  else None.

(** [getu4(s)]: the code unit of a [\uXXXX] at the front of [s]. *)
Definition getu4 (s : bytes) : option N :=
  match s with
  | "\"%char :: "u"%char :: a :: b :: c :: d :: _ =>
      match hexValue a, hexValue b, hexValue c, hexValue d with
      | Some x, Some y, Some z, Some w => Some (((x * 16 + y) * 16 + z) * 16 + w)%N
      | _, _, _, _ => None
      end
  | _ => None
  end.

(** [utf16.DecodeRune(r1, r2)]. *)
Definition utf16_DecodeRune (r1 r2 : N) : N :=
  if ((55296 <=? r1) && (r1 <? 56320) && (56320 <=? r2) && (r2 <? 57344))%N
  then (N.lor (N.shiftl (r1 - 55296) 10) (r2 - 56320) + 65536)%N
  else utf8.RuneError.

Definition simpleEscape (c : ascii) : option ascii :=
  if Ascii.eqb c "b" then Some "008"%char
  else if Ascii.eqb c "f" then Some "012"%char
  else if Ascii.eqb c "n" then Some "010"%char
  else if Ascii.eqb c "r" then Some "013"%char
  else if Ascii.eqb c "t" then Some "009"%char
  else if Ascii.eqb c "\" || Ascii.eqb c "/" || Ascii.eqb c dquote then Some c
  else None.

Definition prepend (b : bytes) (res : option (bytes * bytes)) : option (bytes * bytes) :=
  match res with
  | Some (s, rest) => Some (b ++ s, rest)
  | None => None
  end.

(** [unquote], from the byte after the opening quote: the bytes of the
    string and the text after the closing quote. *)
Fixpoint unquote_loop (fuel : nat) (s : bytes) : option (bytes * bytes) :=
  match fuel, s with
  | O, _ | _, [] => None
  | S fuel', c :: rest =>
      if Ascii.eqb c dquote then Some ([], rest)
      else if Ascii.eqb c "\" then
        match rest with
        | [] => None
        | "u"%char :: _ =>
            match getu4 s with
            | None => None
            | Some rr =>
                let after := skipn 6 s in
                if utf8.isSurrogate rr then
                  let dec :=
                    match getu4 after with
                    | Some rr1 => utf16_DecodeRune rr rr1
                    | None => utf8.RuneError
                    end in
                  if (dec =? utf8.RuneError)%N
                  then prepend (utf8.EncodeRune utf8.RuneError) (unquote_loop fuel' after)
                  else prepend (utf8.EncodeRune dec) (unquote_loop fuel' (skipn 6 after))
                else prepend (utf8.EncodeRune rr) (unquote_loop fuel' after)
            end
        | e :: rest' =>
            match simpleEscape e with
            | Some d => prepend [d] (unquote_loop fuel' rest')
            | None => None
            end
        end
      else if (N_of_ascii c <? 32)%N then None
      else if (N_of_ascii c <? 128)%N then prepend [c] (unquote_loop fuel' rest)
      else
        let '(rune, size) := utf8.DecodeRune (firstn 4 s) in
        prepend (utf8.EncodeRune rune) (unquote_loop fuel' (skipn size s))
  end.

Definition isNumberByte (c : ascii) : bool :=
  isDigit c || Ascii.eqb c "-" || Ascii.eqb c "+" || Ascii.eqb c "."
  || Ascii.eqb c "e" || Ascii.eqb c "E".

Fixpoint spanNumber (b : bytes) : bytes * bytes :=
  match b with
  | c :: b' =>
      if isNumberByte c then let '(n, rest) := spanNumber b' in (c :: n, rest)
      else ([], b)
  | [] => ([], [])
  end.

Definition stripPrefix (pre : string) (b : bytes) : option bytes :=
  let p := bytes_of pre in
  if list_eq_dec ascii_dec (firstn (length p) b) p
  then Some (skipn (length p) b) else None.

Fixpoint parseValue (fuel : nat) (b : bytes) : option (value * bytes) :=
  match fuel with
  | O => None
  | S fuel' =>
      match skipSpace b with
      | [] => None
      | c :: rest =>
          if Ascii.eqb c "{" then
            match skipSpace rest with
            | "}"%char :: rest' => Some (Object [], rest')
            | _ =>
                match parseMembers fuel' rest with
                | Some (ms, rest') => Some (Object ms, rest')
                | None => None
                end
            end
          else if Ascii.eqb c "[" then
            match skipSpace rest with
            | "]"%char :: rest' => Some (Array [], rest')
            | _ =>
                match parseElements fuel' rest with
                | Some (vs, rest') => Some (Array vs, rest')
                | None => None
                end
            end
          else if Ascii.eqb c dquote then
            match unquote_loop (S (length rest)) rest with
            | Some (str, rest') => Some (Str (string_of_list_ascii str), rest')
            | None => None
            end
          else if Ascii.eqb c "n" then
            option_map (pair Null) (stripPrefix "null" (c :: rest))
          else if Ascii.eqb c "t" then
            option_map (pair (Bool true)) (stripPrefix "true" (c :: rest))
          else if Ascii.eqb c "f" then
            option_map (pair (Bool false)) (stripPrefix "false" (c :: rest))
          else if Ascii.eqb c "-" || isDigit c then
            let '(n, rest') := spanNumber (c :: rest) in
            Some (Number (string_of_list_ascii n), rest')
          else None
      end
  end
with parseElements (fuel : nat) (b : bytes) : option (list value * bytes) :=
  match fuel with
  | O => None
  | S fuel' =>
      match parseValue fuel' b with
      | None => None
      | Some (v, rest) =>
          match skipSpace rest with
          | ","%char :: rest' =>
              match parseElements fuel' rest' with
              | Some (vs, rest'') => Some (v :: vs, rest'')
              | None => None
              end
          | "]"%char :: rest' => Some ([v], rest')
          | _ => None
          end
      end
  end
with parseMembers (fuel : nat) (b : bytes) : option (list (string * value) * bytes) :=
  match fuel with
  | O => None
  | S fuel' =>
      match skipSpace b with
      | q :: afterq =>
          if Ascii.eqb q dquote then
            match unquote_loop (S (length afterq)) afterq with
            | None => None
            | Some (key, rest) =>
                match skipSpace rest with
                | ":"%char :: rest1 =>
                    match parseValue fuel' rest1 with
                    | None => None
                    | Some (v, rest2) =>
                        let m := (string_of_list_ascii key, v) in
                        match skipSpace rest2 with
                        | ","%char :: rest3 =>
                            match parseMembers fuel' rest3 with
                            | Some (ms, rest4) => Some (m :: ms, rest4)
                            | None => None
                            end
                        | "}"%char :: rest3 => Some ([m], rest3)
                        | _ => None
                        end
                    end
                | _ => None
                end
            end
          else None
      | [] => None
      end
  end.

(** The tree of a text that holds one value. *)
Definition parse (text : bytes) : option value :=
  match parseValue (S (length text)) text with
  | Some (v, rest) => if nonSpace rest then None else Some v
  | None => None
  end.

Fixpoint digitsValue (acc : Z) (b : bytes) : option Z :=
  match b with
  | [] => Some acc
  | c :: b' =>
      if isDigit c then digitsValue (10 * acc + Z.of_N (N_of_ascii c - 48)) b'
      else None
  end.

(** [strconv.ParseInt(s, 10, 64)] on a JSON number literal, with the
    range check of a Go [int]: [None] when the literal has a fraction
    or an exponent or does not fit. *)
Definition ParseInt (literal : string) : option Z :=
  let value_of (neg : bool) (digits : bytes) :=
    match digits with
    | [] => None
    | _ =>
        match digitsValue 0 digits with
        | Some n =>
            let z := if neg then - n else n in
            if (- 2 ^ 63 <=? z) && (z <? 2 ^ 63) then Some z else None
        | None => None
        end
    end in
  match bytes_of literal with
  | "-"%char :: digits => value_of true digits
  | digits => value_of false digits
  end.

End json.

(** ** Package generichttp ([handler.go]) *)

(** A Go [error] value, seen through the method set of its dynamic type:
    [Error()] is always there; [HTTPCode] is [Some c] when the type has a
    method [HTTPCode() int], which returns [c]; [HTTPError] is [Some m]
    when it has a method [HTTPError() string], which returns [m].  The
    type assertions of [WriteJSONError] are matches on these options. *)
Record error := mkError {
  Error : string;
  HTTPCode : option Z;
  HTTPError : option string
}.

(** [type Request[T any] struct { *http.Request; Data *T }] *)
Record Request (T : Type) := mkReq {
  req_Request : http.Request;
  req_Data : option T
}.
Arguments mkReq {T}.
Arguments req_Request {T}.
Arguments req_Data {T}.

(** [type Response[T any] struct { StatusCode int; Data *T }] *)
Record Response (T : Type) := mkResp {
  resp_StatusCode : Z;
  resp_Data : option T
}.
Arguments mkResp {T}.
Arguments resp_StatusCode {T}.
Arguments resp_Data {T}.

(** [type Handler[R, W any]]: a function of an [http.ResponseWriter] and
    a [Request[R]] that returns a pointer to a [Response[W]] and an
    [error].  The handler may call the response writer, so the model also
    returns the writer as the handler leaves it. *)
Definition Handler (R W : Type) : Type :=
  http.ResponseWriter -> Request R ->
  http.ResponseWriter * option (Response W) * option error.

(** What a call of an [http.Handler] comes to. *)
Inductive outcome :=
| Returned (w : http.ResponseWriter)
| Panicked.                            (* nil pointer dereference *)

(** The number of [Read] rounds after which the decoder has seen the end
    of the body: every round that does not end the decoding takes a byte
    or a piece off the stream. *)
Definition rounds (b : http.body) : nat :=
  S (length (http.content b) + length (http.pending b)).

Definition set_Body (r : http.Request) (b : http.body) : http.Request :=
  http.mkRequest (http.Method r) (http.URL r) b.

(** [NewRequest]: [req.Request] is the pointer [r], so the envelope sees
    the body as the decoder leaves it. *)
Definition NewRequest {T : Type} `{json.Unmarshaler T} (r : http.Request) : Request T :=
  let req := mkReq r None in
  match
    json.Decode (rounds (http.Body r))
      (json.NewDecoder (io.LimitReader (http.Body r) (Z.shiftl 1 20)))
      (req_Data req)
  with
  | Some (_, dec, data) => mkReq (set_Body r (io.R (json.r dec))) data
  | None => req
  end.

Definition NewResponseWithCode {T : Type} (code : Z) (data : option T) : Response T :=
  mkResp code data.

Definition NewResponse {T : Type} (data : option T) : Response T :=
  NewResponseWithCode http.StatusOK data.

(** A pointer encodes as its pointee, a nil pointer as [null]. *)
#[global] Instance pointer_Marshaler {W : Type} `{json.Marshaler W} :
  json.Marshaler (option W) :=
  fun p => match p with Some v => json.marshal v | None => Some json.Null end.

Definition WriteJSONCode {A : Type} `{json.Marshaler A}
    (w : http.ResponseWriter) (code : Z) (data : A) : http.ResponseWriter :=
  let w := http.Header_Set w "Content-Type" "application/json" in
  let code := if code =? 0 then http.StatusOK else code in
  let w := http.do_WriteHeader w code in
  json.Encode w data.

Definition WriteJSON {A : Type} `{json.Marshaler A}
    (w : http.ResponseWriter) (data : A) : http.ResponseWriter :=
  WriteJSONCode w http.StatusOK data.

(** [struct { Message string `json:"message"` }] of [WriteJSONError]. *)
Record errorBody := mkErrorBody { body_Message : string }.

#[global] Instance errorBody_Marshaler : json.Marshaler errorBody :=
  fun msg => Some (json.Object [("message"%string, json.Str (body_Message msg))]).

Definition WriteJSONError (w : http.ResponseWriter) (err : error) : http.ResponseWriter :=
  let msg := mkErrorBody "Internal server error" in
  let w := http.Header_Set w "Content-Type" "application/json" in
  let w :=
    match HTTPCode err with
    | Some code => http.do_WriteHeader w code
    | None => http.do_WriteHeader w http.StatusInternalServerError
    end in
  let msg :=
    match HTTPError err with
    | Some m => mkErrorBody m
    | None => msg
    end in
  json.Encode w msg.

(** The body of the handler function of [JSON] after the call of [h]
    (lines 60 to 66): [res] is what [h] returned. *)
Definition JSON_respond {W : Type} `{json.Marshaler W}
    (res : http.ResponseWriter * option (Response W) * option error) : outcome :=
  let '(w, resp, err) := res in
  match err with
  | Some e => Returned (WriteJSONError w e)
  | None =>
      match resp with
      | None => Panicked                       (* [resp.Data] on a nil [resp] *)
      | Some resp =>
          match resp_Data resp with
          | Some _ => Returned (WriteJSONCode w (resp_StatusCode resp) (resp_Data resp))
          | None => Returned w
          end
      end
  end.

(** [JSON(h)] applied to a response writer and a request. *)
Definition JSON {R W : Type} `{json.Unmarshaler R} `{json.Marshaler W}
    (h : Handler R W) (w : http.ResponseWriter) (r : http.Request) : outcome :=
  let req := NewRequest r in
  JSON_respond (h w req).

(** [type BadRequestError struct { Message string }] *)
Record BadRequestError := mkBadRequest { Message : string }.

Definition BadRequestError_HTTPCode (e : BadRequestError) : Z :=
  http.StatusBadRequest.

Definition BadRequestError_HTTPError (e : BadRequestError) : string :=
  if negb (String.eqb (Message e) "") then Message e else "Bad request".

Definition BadRequestError_Error (e : BadRequestError) : string :=
  BadRequestError_HTTPError e.

(** A [BadRequestError] held in an [error]. *)
Definition BadRequestError_error (e : BadRequestError) : error :=
  mkError (BadRequestError_Error e)
    (Some (BadRequestError_HTTPCode e)) (Some (BadRequestError_HTTPError e)).

(** [errors.New(text)]: an error with neither capability. *)
Definition errors_New (text : string) : error := mkError text None None.

(** ** The demo server's add endpoint *)

(** [type addRequest struct { A int `json:"a"`; B int `json:"b"` }] *)
Record addRequest := mkAddRequest { A : Z; B : Z }.

(** [type addResponse struct { Result int `json:"result"` }] *)
Record addResponse := mkAddResponse { Result : Z }.

Definition toUpper (c : ascii) : ascii :=
  if in_range "a" "z" c then ascii_of_N (N_of_ascii c - 32) else c.

(** A member name selects a field when it is the field's name, exactly or
    up to the case of its letters. *)
Definition selects (key field : string) : bool :=
  if list_eq_dec ascii_dec (map toUpper (bytes_of key)) (map toUpper (bytes_of field))
  then true else false.

(** Storing a JSON value into an [int]: [null] leaves it alone, a number
    literal that [json.ParseInt] accepts is stored, anything else is an
    [UnmarshalTypeError] and the field keeps its value. *)
Definition storeInt (v : json.value) (old : Z) : Z * option json.DecodeError :=
  match v with
  | json.Null => (old, None)
  | json.Number literal =>
      match json.ParseInt literal with
      | Some z => (z, None)
      | None => (old, Some json.UnmarshalTypeError)
      end
  | _ => (old, Some json.UnmarshalTypeError)
  end.

(** [d.saveError]: the first error is the one kept. *)
Definition saveError (saved new : option json.DecodeError) : option json.DecodeError :=
  match saved with Some _ => saved | None => new end.

Fixpoint storeMembers (ms : list (string * json.value)) (v : addRequest)
    (saved : option json.DecodeError) : addRequest * option json.DecodeError :=
  match ms with
  | [] => (v, saved)
  | (key, x) :: ms' =>
      if selects key "a" then
        let '(a, e) := storeInt x (A v) in
        storeMembers ms' (mkAddRequest a (B v)) (saveError saved e)
      else if selects key "b" then
        let '(b, e) := storeInt x (B v) in
        storeMembers ms' (mkAddRequest (A v) b) (saveError saved e)
      else storeMembers ms' v saved
  end.

#[global] Instance addRequest_Unmarshaler : json.Unmarshaler addRequest := {|
  json.zero := mkAddRequest 0 0;
  json.unmarshalInto text v :=
    match json.parse text with
    | Some (json.Object ms) => storeMembers ms v None
    | Some json.Null => (v, None)
    | Some _ => (v, Some json.UnmarshalTypeError)
    | None => (v, Some json.SyntaxError)
    end
|}.

#[global] Instance addResponse_Marshaler : json.Marshaler addResponse :=
  fun resp => Some (json.Object [("result"%string, json.Number (json.itoa (Result resp)))]).

(** The function that [addHandler] passes to [generichttp.JSON]. *)
Definition add : Handler addRequest addResponse :=
  fun w req =>
    match req_Data req with
    | None =>
        (w, None, Some (BadRequestError_error (mkBadRequest "Missing request data")))
    | Some data =>
        let resp := NewResponse (Some (mkAddResponse (wrap64 (A data + B data)))) in
        (w, Some resp, None)
    end.

Definition addHandler : http.ResponseWriter -> http.Request -> outcome := JSON add.

(** A POST request whose body arrives in one piece. *)
Definition post (url : string) (body : bytes) : http.Request :=
  http.mkRequest "POST" url (http.mkBody [body]).

(** ** What the decoder computes, in terms of the bytes of the body *)

(** The bytes of the body that a reader limited to [n] bytes lets through. *)
Definition limited (b : http.body) (n : Z) : bytes :=
  firstn (Z.to_nat n) (http.content b).

(** The result of [readValue] on a stream that delivers [content] and then
    ends, whatever the pieces it arrives in: the value ends inside
    [content], or the scanner rejects a byte, or the stream ends first
    ([io.EOF] on white space only, [io.ErrUnexpectedEOF] otherwise). *)
Definition scanContent (content : bytes) : json.readResult :=
  match json.scanBuffer json.reset content with
  | json.ValueEnds n => json.ValueOfLength n
  | json.ScanFails => json.ReadFails json.SyntaxError
  | json.NeedMore s =>
      if json.isEnd (snd (json.scan_step s " ")) then
        json.ValueOfLength (length content)
      else if json.nonSpace content then
        json.ReadFails (json.ReadError io.ErrUnexpectedEOF)
      else json.ReadFails (json.ReadError io.EOF)
  end.

(** The payload that decoding [content] leaves in a nil [*T]. *)
Definition decodeData {T : Type} `{json.Unmarshaler T} (content : bytes) : option T :=
  match scanContent content with
  | json.ValueOfLength n => fst (json.unmarshal (firstn n content) None)
  | json.ReadFails _ => None
  end.

(** The request body as [NewRequest] sees it. *)
Definition seen (r : http.Request) : bytes :=
  limited (http.Body r) (Z.shiftl 1 20).

(** What is left for a limited reader to deliver, as a number of bytes
    and pieces. *)
Definition measure (b : http.body) (n : Z) : nat :=
  (length (limited b n) + length (http.pending b))%nat.

Definition offset (k : nat) (res : json.scanned) : json.scanned :=
  match res with
  | json.ValueEnds n => json.ValueEnds (k + n)
  | other => other
  end.

(** ** Notions used to state the properties *)

(** The header call that announces a JSON body. *)
Definition jsonContentType : http.call :=
  http.SetHeader "Content-Type" "application/json".

(** The text of the error body [{"message": m}] as the encoder prints it. *)
Definition messageBody (m : string) : bytes :=
  json.encode (json.Object [("message"%string, json.Str m)]) ++ [newline].

(** The body [{"a":1,"b":2}] of the demo's request. *)
Definition onePlusTwo : bytes :=
  bytes_of ("{" ++ quoted "a" ++ ":1," ++ quoted "b" ++ ":2}")%string.

(** A handler that answers with status code 0 and a payload. *)
Definition zeroCode : Handler addRequest addResponse :=
  fun w _ => (w, Some (NewResponseWithCode 0 (Some (mkAddResponse 3))), None).

(** A handler that returns neither a response nor an error. *)
Definition nothing : Handler addRequest addResponse :=
  fun w _ => (w, None, None).

(** A handler that returns both a response with a payload and an error. *)
Definition both : Handler addRequest addResponse :=
  fun w _ => (w, Some (NewResponse (Some (mkAddResponse 3))), Some (errors_New "boom")).

(** A handler that writes its own response and returns an empty envelope. *)
Definition direct : Handler addRequest addResponse :=
  fun w _ =>
    (http.do_Write (http.do_WriteHeader w 204) [], Some (NewResponse None), None).

(** A handler that always fails with a [BadRequestError]. *)
Definition reject (message : string) : Handler addRequest addResponse :=
  fun w _ => (w, None, Some (BadRequestError_error (mkBadRequest message))).

(** The scanner is inside an object or an array that is still open. *)
Definition inside (s : json.scanner) : Prop :=
  json.parseState s <> [] /\ json.step s <> json.stateEndTop.

(** The first byte after white space opens an object or an array. *)
Definition opensComposite (content : bytes) : bool :=
  match json.skipSpace content with
  | c :: _ => Ascii.eqb c "{" || Ascii.eqb c "["
  | [] => false
  end.


(** The demo's request after 2^20 bytes of white space: valid JSON of
    2^20 + 13 bytes. *)
Definition padded : bytes :=
  repeat " "%char (Z.to_nat (Z.shiftl 1 20)) ++ onePlusTwo.

(** ** Notions used to state further properties *)

(** The body that the demo's add handler answers with for the sum [n]. *)
Definition resultBody (n : Z) : bytes :=
  bytes_of ("{" ++ quoted "result" ++ ":")%string ++ bytes_of (json.itoa n)
  ++ bytes_of "}" ++ [newline].

(** A Go value that [json.Marshal] rejects with an unsupported type
    error: a channel. *)
Inductive channel := Chan.

#[global] Instance channel_Marshaler : json.Marshaler channel := fun _ => None.

(** A handler whose payload cannot be encoded. *)
Definition unencodable : Handler addRequest channel :=
  fun w _ => (w, Some (NewResponseWithCode 201 (Some Chan)), None).

(** The calls that the adapter may add to a response writer: none, or
    the content type and a status, or those and one write of a body. *)
Inductive rendering : list http.call -> Prop :=
| renders_nothing : rendering []
| renders_status : forall code : Z,
    rendering [jsonContentType; http.WriteHeader code]
| renders_body : forall (code : Z) (body : bytes),
    rendering [jsonContentType; http.WriteHeader code; http.Write body].

(** What [appendString] prints for one byte below [utf8.RuneSelf]. *)
Definition printByte (c : ascii) : bytes :=
  if json.htmlSafe c then [c] else json.escapeByte c.

(** The scanner inside a string literal, with [ps] the composite values
    around it. *)
Definition inString (ps : list json.parseKind) : json.scanner :=
  json.mkScanner json.stateInString false ps false.

(** Every byte is below [utf8.RuneSelf]. *)
Definition isASCII (s : string) : bool :=
  forallb (fun c => (N_of_ascii c <? 128)%N) (bytes_of s).

(** The request body [{"a":a,"b":b}] with the two numbers in decimal. *)
Definition addText (a b : Z) : bytes :=
  bytes_of ("{" ++ quoted "a" ++ ":")%string ++ bytes_of (json.itoa a)
  ++ bytes_of ("," ++ quoted "b" ++ ":")%string ++ bytes_of (json.itoa b)
  ++ bytes_of "}".

(** The values of a Go [int]. *)
Definition int64 (z : Z) : Prop := - 2 ^ 63 <= z < 2 ^ 63.

(** The decimal digits of [d] as bytes. *)
Definition digitsOf (d : Decimal.uint) : bytes :=
  bytes_of (NilEmpty.string_of_uint d).

(** The first digit of [d] is not zero. *)
Definition leads (d : Decimal.uint) : bool :=
  match d with
  | Decimal.Nil | Decimal.D0 _ => false
  | _ => true
  end.

(** The scanner in state [st] below the composite values [ps]. *)
Definition scanning (st : json.stepFn) (ps : list json.parseKind) : json.scanner :=
  json.mkScanner st false ps false.


(** * Properties *)

(** ** The scanner over pieces of input *)

Lemma advance_offset k res : json.advance (offset k res) = offset (S k) res.
Proof. destruct res; reflexivity. Qed.

Lemma scanBuffer_app : forall a s b,
  json.scanBuffer s (a ++ b) =
  match json.scanBuffer s a with
  | json.NeedMore s' => offset (length a) (json.scanBuffer s' b)
  | res => res
  end.
Proof.
  induction a as [|c a IH]; intros s b.
  - simpl. destruct (json.scanBuffer s b); reflexivity.
  - simpl. destruct (json.scan_step s c) as [s1 code].
    destruct code; try reflexivity;
      try (rewrite IH; destruct (json.scanBuffer s1 a);
           simpl; try reflexivity; apply advance_offset).
    + destruct (json.do_stateEndValue s1 " ") as [s2 code2].
      destruct (json.isEnd code2); [reflexivity|].
      rewrite IH. destruct (json.scanBuffer s2 a); simpl; try reflexivity.
      apply advance_offset.
    + destruct (json.do_stateEndValue s1 " ") as [s2 code2].
      destruct (json.isEnd code2); [reflexivity|].
      rewrite IH. destruct (json.scanBuffer s2 a); simpl; try reflexivity.
      apply advance_offset.
Qed.

Lemma scanBuffer_bound : forall p s n,
  json.scanBuffer s p = json.ValueEnds n -> (n <= length p)%nat.
Proof.
  induction p as [|c p IH]; intros s n; simpl.
  - discriminate.
  - destruct (json.scan_step s c) as [s1 code].
    assert (Hadv : forall s', json.advance (json.scanBuffer s' p) = json.ValueEnds n ->
                              (n <= S (length p))%nat).
    { intros s' H. destruct (json.scanBuffer s' p) eqn:E; try discriminate.
      simpl in H. injection H as <-. apply IH in E. lia. }
    destruct code; try (apply Hadv); try discriminate.
    + destruct (json.do_stateEndValue s1 " ") as [s2 code2].
      destruct (json.isEnd code2); [|apply Hadv].
      intros H; injection H as <-. lia.
    + destruct (json.do_stateEndValue s1 " ") as [s2 code2].
      destruct (json.isEnd code2); [|apply Hadv].
      intros H; injection H as <-. lia.
    + intros H; injection H as <-. lia.
Qed.

(** ** The scanner inside an open object or array *)

Ltac split_ifs :=
  repeat match goal with
         | |- context [if ?b then _ else _] => destruct b
         end.

Lemma inside_EndValue : forall s c s1 code,
  json.parseState s <> [] ->
  json.do_stateEndValue s c = (s1, code) ->
  code <> json.scanEnd /\
  match code with
  | json.scanError => True
  | json.scanEndObject | json.scanEndArray =>
      forall s2 code2, json.do_stateEndValue s1 " " = (s2, code2) ->
                       json.isEnd code2 = false -> inside s2
  | _ => inside s1
  end.
Proof.
  intros [st et ps er] c s1 code Hps. simpl in Hps.
  destruct ps as [|k rest]; [congruence|].
  unfold json.do_stateEndValue, json.error, json.set_step, json.set_top,
    json.popParseState. simpl.
  destruct k, rest as [|k' rest']; split_ifs;
    intros H; injection H as <- <-; (split; [discriminate|]); simpl;
    try exact I; unfold inside; simpl;
    try (split; discriminate);
    try (intros s2 code2 H2; injection H2 as <- <-; simpl; discriminate);
    try (intros s2 code2 H2 _; simpl in H2; injection H2 as <- <-; simpl; split; discriminate).
Qed.

Lemma inside_step : forall s c s1 code,
  inside s ->
  json.scan_step s c = (s1, code) ->
  code <> json.scanEnd /\
  match code with
  | json.scanError => True
  | json.scanEndObject | json.scanEndArray =>
      forall s2 code2, json.do_stateEndValue s1 " " = (s2, code2) ->
                       json.isEnd code2 = false -> inside s2
  | _ => inside s1
  end.
Proof.
  intros [st et ps er] c s1 code [Hps Hst]. simpl in Hps, Hst.
  unfold json.scan_step. simpl.
  destruct st; try congruence;
    unfold json.do_stateBeginValueOrEmpty, json.do_stateBeginStringOrEmpty,
      json.do_stateBeginValue, json.do_stateBeginString, json.do_stateInString,
      json.do_stateInStringEsc, json.do_hex, json.do_stateNeg, json.do_state1,
      json.do_state0, json.do_stateDot, json.do_stateDot0, json.do_stateE,
      json.do_stateESign, json.do_stateE0, json.do_letter, json.pushParseState,
      json.continue_with, json.error, json.set_step, json.set_top; simpl;
    split_ifs;
    try (intros H; apply inside_EndValue in H; [exact H|simpl; congruence]);
    intros H; injection H as <- <-; (split; [discriminate|]);
    try exact I; unfold inside; simpl; split; congruence.
Qed.


Lemma inside_scanBuffer : forall p s s',
  inside s -> json.scanBuffer s p = json.NeedMore s' -> inside s'.
Proof.
  induction p as [|c p IH]; intros s s' Hin; simpl.
  - intros H; injection H as <-. exact Hin.
  - destruct (json.scan_step s c) as [s1 code] eqn:Hstep.
    destruct (inside_step _ _ _ _ Hin Hstep) as [Hne Hcode].
    assert (Hadv : forall t, inside t ->
              json.advance (json.scanBuffer t p) = json.NeedMore s' -> inside s').
    { intros t Ht H. destruct (json.scanBuffer t p) eqn:E; try discriminate.
      simpl in H. injection H as <-. eapply IH; eauto. }
    destruct code; try (apply Hadv; exact Hcode); try discriminate.
    + destruct (json.do_stateEndValue s1 " ") as [s2 code2] eqn:E2.
      destruct (json.isEnd code2) eqn:Hend; [discriminate|].
      apply Hadv. eapply Hcode; eauto.
    + destruct (json.do_stateEndValue s1 " ") as [s2 code2] eqn:E2.
      destruct (json.isEnd code2) eqn:Hend; [discriminate|].
      apply Hadv. eapply Hcode; eauto.
Qed.

Lemma inside_not_end : forall s,
  inside s -> json.isEnd (snd (json.scan_step s " ")) = false.
Proof.
  intros s Hin. destruct (json.scan_step s " ") as [s1 code] eqn:Hstep.
  destruct (inside_step _ _ _ _ Hin Hstep) as [Hne _].
  destruct code; try reflexivity. congruence.
Qed.

Lemma opensComposite_inside : forall content s,
  opensComposite content = true ->
  json.scanBuffer json.reset content = json.NeedMore s ->
  inside s /\ json.nonSpace content = true.
Proof.
  induction content as [|c content IH]; intros s Hopen; [discriminate|].
  unfold opensComposite in Hopen. simpl in Hopen.
  unfold json.nonSpace. simpl.
  unfold json.scan_step, json.do_stateBeginValue. simpl.
  destruct (json.isSpace c) eqn:Hsp.
  - intros H. destruct (json.scanBuffer json.reset content) eqn:E; try discriminate.
    simpl in H. injection H as <-.
    destruct (IH s0 Hopen eq_refl) as [Hin Hns]. split; [exact Hin|exact Hns].
  - simpl. apply orb_true_iff in Hopen.
    assert (Hpush : forall next k t,
              json.advance (json.scanBuffer
                 (json.mkScanner next false [k] false) content) = json.NeedMore t ->
              next <> json.stateEndTop -> inside t).
    { intros next k t H Hnext.
      destruct (json.scanBuffer (json.mkScanner next false [k] false) content) eqn:E;
        try discriminate.
      simpl in H. injection H as <-.
      eapply inside_scanBuffer; [|exact E]. split; simpl; congruence. }
    destruct Hopen as [Hc|Hc]; apply Ascii.eqb_eq in Hc; subst c; simpl;
      intros H; (split; [|reflexivity]);
      eapply Hpush; eauto; discriminate.
Qed.

Lemma cut_composite : forall content rest,
  rest <> [] ->
  opensComposite content = true ->
  json.scanBuffer json.reset (content ++ rest)
    = json.ValueEnds (length (content ++ rest)) ->
  scanContent content = json.ReadFails (json.ReadError io.ErrUnexpectedEOF).
Proof.
  intros content rest Hrest Hopen Hfull.
  rewrite scanBuffer_app in Hfull.
  assert (Hlong : (length content < length (content ++ rest))%nat).
  { rewrite length_app. destruct rest; [congruence|simpl; lia]. }
  unfold scanContent.
  destruct (json.scanBuffer json.reset content) as [n| |s] eqn:E.
  - injection Hfull as Hn. apply scanBuffer_bound in E. lia.
  - discriminate.
  - destruct (opensComposite_inside _ _ Hopen E) as [Hin Hns].
    rewrite (inside_not_end _ Hin), Hns. reflexivity.
Qed.

(** ** The limited reader over a request body *)

Lemma limited_Read : forall b n k p e l',
  (1 <= k)%nat ->
  io.Read (io.mkLimited b n) k = (p, e, l') ->
  (length p <= k)%nat /\
  http.content b = p ++ http.content (io.R l') /\
  limited b n = p ++ limited (io.R l') (io.N l') /\
  ((e = Some io.EOF /\ p = [] /\ limited b n = []) \/
   (e = None /\ (measure (io.R l') (io.N l') < measure b n)%nat)).
Proof.
  intros b n k p e l' Hk.
  unfold io.Read, io.LimitedReader_Reader, io.LimitedReader_Read. simpl.
  destruct (n <=? 0) eqn:Hn.
  - intros H; injection H as <- <- <-. simpl.
    apply Z.leb_le in Hn.
    assert (Hl : limited b n = []).
    { unfold limited. replace (Z.to_nat n) with 0%nat by lia. reflexivity. }
    rewrite Hl. split; [lia|]. split; [reflexivity|]. split; [reflexivity|].
    left. auto.
  - apply Z.leb_gt in Hn.
    set (k' := if Z.of_nat k >? n then Z.to_nat n else k).
    assert (Hk' : (1 <= k' <= k)%nat /\ (k' <= Z.to_nat n)%nat).
    { unfold k'. destruct (Z.of_nat k >? n) eqn:E.
      - apply Z.gtb_lt in E. lia.
      - rewrite Z.gtb_ltb in E. apply Z.ltb_ge in E. lia. }
    unfold io.Read, http.body_Reader, http.body_Read.
    destruct b as [pend]. simpl.
    destruct pend as [|c cs].
    + intros H; injection H as <- <- <-. simpl.
      unfold limited, http.content. simpl. rewrite !firstn_nil.
      split; [lia|]. split; [reflexivity|]. split; [reflexivity|].
      left. auto.
    + intros H; injection H as <- <- <-. simpl.
      assert (Hlen : (length (firstn k' c) <= k')%nat) by apply firstn_le_length.
      assert (Hc : http.content
                (http.mkBody match skipn k' c with [] => cs | a :: l => (a :: l) :: cs end)
              = skipn k' c ++ concat cs).
      { unfold http.content; simpl. destruct (skipn k' c); reflexivity. }
      assert (Hcontent : c ++ concat cs = firstn k' c ++ skipn k' c ++ concat cs).
      { rewrite app_assoc, firstn_skipn. reflexivity. }
      split; [lia|]. split.
      { unfold http.content at 1; simpl. rewrite Hc. exact Hcontent. }
      assert (Hlim : limited (http.mkBody (c :: cs)) n =
                     firstn k' c ++
                     limited (http.mkBody match skipn k' c with [] => cs | a :: l => (a :: l) :: cs end)
                       (n - Z.of_nat (length (firstn k' c)))).
      { unfold limited. rewrite Hc. unfold http.content; simpl.
        rewrite Hcontent at 1. rewrite firstn_app.
        rewrite (firstn_all2 (firstn k' c)) by lia.
        f_equal. f_equal. lia. }
      split; [exact Hlim|].
      right. split; [reflexivity|].
      unfold measure. rewrite Hlim. rewrite length_app. simpl.
      destruct (skipn k' c) eqn:Es; simpl; [lia|].
      assert (firstn k' c <> []).
      { destruct c; [rewrite skipn_nil in Es; discriminate|].
        destruct k'; [lia|]. simpl. discriminate. }
      destruct (firstn k' c); [congruence|simpl; lia].
Qed.

(** ** The decoder over the limited body *)

Lemma refill_request_positive : forall cap len : nat,
  (len <= cap)%nat ->
  let cap' := if (cap - len <? json.minRead)%nat then (2 * cap + json.minRead)%nat else cap in
  (1 <= cap' - len)%nat /\ (cap <= cap')%nat.
Proof.
  intros cap len H. unfold json.minRead. simpl.
  destruct (cap - len <? 512)%nat eqn:E.
  - lia.
  - apply Nat.ltb_ge in E. lia.
Qed.

Lemma scanContent_NeedMore_eof buf s :
  json.scanBuffer json.reset buf = json.NeedMore s ->
  scanContent buf =
    if json.isEnd (snd (json.scan_step s " ")) then json.ValueOfLength (length buf)
    else if json.nonSpace buf then json.ReadFails (json.ReadError io.ErrUnexpectedEOF)
    else json.ReadFails (json.ReadError io.EOF).
Proof. intros H. unfold scanContent. rewrite H. reflexivity. Qed.

Lemma readValue_limited : forall fuel b n buf cap s,
  json.scanBuffer json.reset buf = json.NeedMore s ->
  (length buf <= cap)%nat ->
  (measure b n < fuel)%nat ->
  exists dec' consumed,
    json.readValue fuel (json.mkDecoder (io.mkLimited b n) buf cap s)
      = Some (scanContent (buf ++ limited b n), dec')
    /\ json.buf dec' = buf ++ consumed
    /\ http.content b = consumed ++ http.content (io.R (json.r dec'))
    /\ limited b n = consumed ++ limited (io.R (json.r dec')) (io.N (json.r dec'))
    /\ (forall m, scanContent (buf ++ limited b n) = json.ValueOfLength m ->
                  (m <= length (json.buf dec'))%nat).
Proof.
  induction fuel as [|fuel IH]; intros b n buf cap s Hs Hcap Hfuel; [lia|].
  cbn [json.readValue]. unfold json.refill. cbn [json.r json.buf json.cap json.scan].
  destruct (refill_request_positive cap (length buf) Hcap) as [Hreq Hcap'].
  cbv zeta in Hreq, Hcap'.
  set (cap' := if (cap - length buf <? json.minRead)%nat
               then (2 * cap + json.minRead)%nat else cap) in *.
  destruct (io.Read (io.mkLimited b n) (cap' - length buf)) as [[p e] l'] eqn:Hread.
  destruct (limited_Read _ _ _ _ _ _ Hreq Hread) as (Hlen & Hcont & Hlim & Hcase).
  cbn [json.r json.buf json.cap json.scan].
  assert (Happ : forall tail, json.scanBuffer json.reset (buf ++ p ++ tail) =
                   match json.scanBuffer s p with
                   | json.NeedMore s' =>
                       offset (length buf) (offset (length p) (json.scanBuffer s' tail))
                   | res => offset (length buf) res
                   end).
  { intros tail. rewrite scanBuffer_app, Hs, scanBuffer_app.
    destruct (json.scanBuffer s p); reflexivity. }
  destruct (json.scanBuffer s p) as [k | | s'] eqn:Hscan.
  - (* the value ends in the new bytes *)
    exists (json.mkDecoder l' (buf ++ p) cap' s), p. simpl.
    assert (Hres : scanContent (buf ++ limited b n) = json.ValueOfLength (length buf + k)).
    { unfold scanContent. rewrite Hlim, Happ. reflexivity. }
    rewrite Hres. repeat split; auto.
    intros m Hm. injection Hm as <-. apply scanBuffer_bound in Hscan.
    rewrite length_app. lia.
  - exists (json.mkDecoder l' (buf ++ p) cap' s), p. simpl.
    assert (Hres : scanContent (buf ++ limited b n) = json.ReadFails json.SyntaxError).
    { unfold scanContent. rewrite Hlim, Happ. reflexivity. }
    rewrite Hres. repeat split; auto. discriminate.
  - destruct Hcase as [(-> & -> & Hnil) | (-> & Hless)].
    + (* end of the stream *)
      simpl in Hscan. injection Hscan as <-.
      exists (json.mkDecoder l' (buf ++ []) cap' s), []. simpl.
      rewrite Hnil, app_nil_r.
      rewrite (scanContent_NeedMore_eof buf s Hs).
      split.
      { destruct (json.isEnd (snd (json.scan_step s " "))); [reflexivity|].
        destruct (json.nonSpace buf); reflexivity. }
      repeat split; auto.
      * rewrite <- Hnil. exact Hlim.
      * intros m Hm.
        destruct (json.isEnd (snd (json.scan_step s " "))).
        -- injection Hm as <-. lia.
        -- destruct (json.nonSpace buf); discriminate.
    + (* more to read *)
      destruct l' as [b' n']. simpl in *.
      assert (Hs' : json.scanBuffer json.reset (buf ++ p) = json.NeedMore s').
      { rewrite scanBuffer_app, Hs, Hscan. reflexivity. }
      destruct (IH b' n' (buf ++ p) cap' s' Hs') as (dec' & consumed & Hrv & Hbuf & Hc & Hl & Hm).
      { rewrite length_app. lia. }
      { lia. }
      exists dec', (p ++ consumed).
      rewrite Hlim, app_assoc. rewrite <- app_assoc in Hrv. 
      split; [rewrite <- app_assoc; exact Hrv|].
      split; [rewrite Hbuf, app_assoc; reflexivity|].
      split; [rewrite Hcont, Hc, app_assoc; reflexivity|].
      split; [rewrite Hl at 1; rewrite app_assoc; reflexivity|].
      exact Hm.
Qed.

(** [Decode] into a nil pointer, from a new decoder over a body limited
    to [n] bytes: the pointer afterwards is what decoding the first [n]
    bytes gives, and the decoder has taken a prefix of those bytes off
    the stream. *)
Lemma Decode_limited {T : Type} `{json.Unmarshaler T} :
  forall fuel b n,
  (measure b n < fuel)%nat ->
  exists e dec' consumed rest,
    json.Decode (T:=T) fuel (json.NewDecoder (io.LimitReader b n)) None
      = Some (e, dec', decodeData (limited b n))
    /\ http.content b = consumed ++ http.content (io.R (json.r dec'))
    /\ limited b n = consumed ++ rest.
Proof.
  intros fuel b n Hfuel.
  unfold json.Decode, json.NewDecoder, io.LimitReader.
  destruct (readValue_limited fuel b n [] 0%nat json.reset eq_refl (Nat.le_refl _) Hfuel)
    as (dec' & consumed & Hrv & Hbuf & Hc & Hl & Hm).
  cbn [app] in Hrv, Hbuf, Hm. rewrite Hrv.
  unfold decodeData.
  destruct (scanContent (limited b n)) as [m|e].
  - assert (Htext : firstn m (json.buf dec') = firstn m (limited b n)).
    { specialize (Hm m eq_refl). rewrite Hl at 1. rewrite Hbuf in *.
      rewrite firstn_app. replace (m - length consumed)%nat with 0%nat by lia.
      cbn [firstn]. rewrite app_nil_r. reflexivity. }
    rewrite Htext.
    destruct (json.unmarshal (T:=T) (firstn m (limited b n)) None) as [p' e'].
    cbn [fst]. eauto 10.
  - eauto 10.
Qed.

(** [NewRequest] in terms of the bytes of the body. *)
Lemma NewRequest_spec {T : Type} `{json.Unmarshaler T} (r : http.Request) :
  exists body' consumed rest,
    NewRequest (T:=T) r = mkReq (set_Body r body') (decodeData (seen r))
    /\ http.content (http.Body r) = consumed ++ http.content body'
    /\ seen r = consumed ++ rest.
Proof.
  destruct (Decode_limited (T:=T) (rounds (http.Body r)) (http.Body r) (Z.shiftl 1 20))
    as (e & dec' & consumed & rest & Hdec & Hc & Hl).
  { unfold measure, rounds, limited. rewrite length_firstn. lia. }
  exists (io.R (json.r dec')), consumed, rest.
  unfold NewRequest. cbn [req_Data]. rewrite Hdec.
  unfold seen. auto.
Qed.

(** ** The response side of the adapter *)

Lemma WriteJSONError_calls (w : http.ResponseWriter) (err : error) :
  WriteJSONError w err =
    w ++ [jsonContentType;
          http.WriteHeader
            (match HTTPCode err with
             | Some code => code
             | None => 500
             end);
          http.Write
            (messageBody
               (match HTTPError err with
                | Some m => m
                | None => "Internal server error"%string
                end))].
Proof.
  unfold WriteJSONError, json.Encode, http.do_Write, http.do_WriteHeader,
    http.Header_Set, messageBody, jsonContentType.
  destruct (HTTPCode err), (HTTPError err); simpl;
    rewrite <- !app_assoc; reflexivity.
Qed.

Lemma WriteJSONCode_calls {W : Type} `{json.Marshaler W}
    (w : http.ResponseWriter) (code : Z) (d : W) (tree : json.value) :
  json.marshal d = Some tree ->
  WriteJSONCode w code (Some d) =
    w ++ [jsonContentType;
          http.WriteHeader (if code =? 0 then 200 else code);
          http.Write (json.encode tree ++ [newline])].
Proof.
  intros Hm.
  unfold WriteJSONCode, json.Encode, http.do_Write, http.do_WriteHeader,
    http.Header_Set, jsonContentType.
  unfold json.marshal at 1, pointer_Marshaler. rewrite Hm.
  rewrite <- !app_assoc. reflexivity.
Qed.

(** C2: WriteJSONError sets the JSON content type, writes the status code
    that HTTPCode() returns when the error has that method and 500
    otherwise, and writes the encoding of the object whose only member
    "message" is what HTTPError() returns when the error has that method
    and "Internal server error" otherwise (the encoder ends the text with
    a newline).  An error with neither method gives 500 and the fixed
    text. *)
Theorem WriteJSONError_renders :
  (forall (w : http.ResponseWriter) (err : error),
     WriteJSONError w err =
       w ++ [jsonContentType;
             http.WriteHeader
               (match HTTPCode err with Some code => code | None => 500 end);
             http.Write
               (json.encode
                  (json.Object
                     [("message"%string,
                       json.Str (match HTTPError err with
                                 | Some m => m
                                 | None => "Internal server error"%string
                                 end))])
                ++ [newline])])
  /\ (let w := WriteJSONError [] (errors_New "boom") in
      http.status w = Some 500
      /\ http.header "Content-Type" w = Some "application/json"%string
      /\ http.written w =
         bytes_of ("{" ++ quoted "message" ++ ":" ++ quoted "Internal server error" ++ "}")%string
         ++ [newline]).
Proof.
  split.
  - intros w err. apply WriteJSONError_calls.
  - repeat split.
Qed.

(** C5: a BadRequestError reports status code 400, and its message is the
    supplied one when that is not empty and "Bad request" otherwise.  So
    whenever a handler returns a BadRequestError, the adapter appends to
    the handler's calls the JSON content type, status 400 and the body
    with that message; with no message the body is
    {"message":"Bad request"}, with message "X" it is {"message":"X"}
    (each followed by the encoder's newline). *)
Theorem BadRequestError_renders :
  forall (R W : Type) (UR : json.Unmarshaler R) (MW : json.Marshaler W)
         (h : Handler R W) (w w1 : http.ResponseWriter) (r : http.Request)
         (resp : option (Response W)) (e : BadRequestError),
  h w (NewRequest r) = (w1, resp, Some (BadRequestError_error e)) ->
  BadRequestError_HTTPCode e = 400
  /\ BadRequestError_HTTPError e =
       (if String.eqb (Message e) "" then "Bad request"%string else Message e)
  /\ JSON h w r =
       Returned (w1 ++ [jsonContentType; http.WriteHeader 400;
                        http.Write (messageBody (BadRequestError_HTTPError e))])
  /\ (Message e = ""%string ->
      messageBody (BadRequestError_HTTPError e) =
        bytes_of ("{" ++ quoted "message" ++ ":" ++ quoted "Bad request" ++ "}")%string
        ++ [newline])
  /\ (Message e = "X"%string ->
      messageBody (BadRequestError_HTTPError e) =
        bytes_of ("{" ++ quoted "message" ++ ":" ++ quoted "X" ++ "}")%string
        ++ [newline]).
Proof.
  intros R W UR MW h w w1 r resp e Hh.
  split; [reflexivity|].
  split.
  { unfold BadRequestError_HTTPError. destruct (String.eqb (Message e) ""); reflexivity. }
  split.
  { unfold JSON. rewrite Hh. unfold JSON_respond.
    rewrite WriteJSONError_calls. reflexivity. }
  split; intros Hm; unfold BadRequestError_HTTPError; rewrite Hm; reflexivity.
Qed.

Lemma BadRequestError_renders_witness :
  JSON (reject "") [] (post "/add" onePlusTwo) =
    Returned [jsonContentType; http.WriteHeader 400;
              http.Write
                (bytes_of ("{" ++ quoted "message" ++ ":" ++ quoted "Bad request" ++ "}")%string
                 ++ [newline])].
Proof.
  destruct (BadRequestError_renders addRequest addResponse _ _ (reject "") [] []
              (post "/add" onePlusTwo) None (mkBadRequest "") eq_refl)
    as (_ & _ & Hjson & Hempty & _).
  rewrite Hjson, (Hempty eq_refl). reflexivity.
Defined.

(** C7: when the handler returns a nil error and a response whose payload
    is nil, the adapter makes no call on the response writer: the writer
    is returned exactly as the handler left it. *)
Theorem JSON_empty_payload_writes_nothing :
  forall (R W : Type) (UR : json.Unmarshaler R) (MW : json.Marshaler W)
         (h : Handler R W) (w w1 : http.ResponseWriter) (r : http.Request)
         (resp : Response W),
  h w (NewRequest r) = (w1, Some resp, None) ->
  resp_Data resp = None ->
  JSON h w r = Returned w1.
Proof.
  intros R W UR MW h w w1 r resp Hh Hd.
  unfold JSON. rewrite Hh. unfold JSON_respond. rewrite Hd. reflexivity.
Qed.

Lemma JSON_empty_payload_writes_nothing_witness :
  JSON direct [] (post "/" []) = Returned [http.WriteHeader 204; http.Write []].
Proof.
  apply (JSON_empty_payload_writes_nothing addRequest addResponse _ _ direct []
           [http.WriteHeader 204; http.Write []] (post "/" []) (NewResponse None));
    reflexivity.
Defined.

(** C8: on a successful dispatch with a payload, a status code of zero is
    written as 200 and any other status code is written as it is, without
    any check of its value; the only status call is the one right after
    the content type.  NewResponse sets the code to 200. *)
Theorem JSON_status_code :
  forall (R W : Type) (UR : json.Unmarshaler R) (MW : json.Marshaler W)
         (h : Handler R W) (w w1 : http.ResponseWriter) (r : http.Request)
         (resp : Response W) (d : W),
  h w (NewRequest r) = (w1, Some resp, None) ->
  resp_Data resp = Some d ->
  exists tail,
    JSON h w r =
      Returned (w1 ++ jsonContentType
                   :: http.WriteHeader
                        (if resp_StatusCode resp =? 0 then 200 else resp_StatusCode resp)
                   :: tail)
    /\ (forall code, ~ In (http.WriteHeader code) tail)
    /\ (resp_StatusCode resp = 0 ->
        (if resp_StatusCode resp =? 0 then 200 else resp_StatusCode resp) = 200)
    /\ (resp_StatusCode resp <> 0 ->
        (if resp_StatusCode resp =? 0 then 200 else resp_StatusCode resp)
        = resp_StatusCode resp)
    /\ resp_StatusCode (NewResponse (Some d)) = 200.
Proof.
  intros R W UR MW h w w1 r resp d Hh Hd.
  unfold JSON. rewrite Hh. unfold JSON_respond. rewrite Hd.
  unfold WriteJSONCode, json.Encode, http.do_Write, http.do_WriteHeader,
    http.Header_Set.
  fold jsonContentType.
  destruct (json.marshal (Some d)) as [tree|].
  - exists [http.Write (json.encode tree ++ [newline])].
    rewrite <- !app_assoc. split; [reflexivity|].
    split.
    { intros code [Hin|[]]. discriminate. }
    split; [intros ->; reflexivity|].
    split; [|reflexivity].
    intros Hne. destruct (resp_StatusCode resp =? 0) eqn:E; [|reflexivity].
    apply Z.eqb_eq in E. contradiction.
  - exists []. rewrite <- !app_assoc. split; [reflexivity|].
    split; [intros code []|].
    split; [intros ->; reflexivity|].
    split; [|reflexivity].
    intros Hne. destruct (resp_StatusCode resp =? 0) eqn:E; [|reflexivity].
    apply Z.eqb_eq in E. contradiction.
Qed.

Lemma JSON_status_code_witness :
  exists tail,
    JSON zeroCode [] (post "/add" onePlusTwo) =
      Returned (jsonContentType :: http.WriteHeader 200 :: tail).
Proof.
  destruct (JSON_status_code addRequest addResponse _ _ zeroCode [] []
              (post "/add" onePlusTwo) (NewResponseWithCode 0 (Some (mkAddResponse 3)))
              (mkAddResponse 3) eq_refl eq_refl)
    as (tail & Hjson & _).
  exists tail. exact Hjson.
Defined.

(** C10: when the handler returns a non-nil error, the adapter renders
    that error on the writer as the handler left it and returns; the
    result does not depend on the response returned along with the error,
    be it nil or a response with a payload and a status code. *)
Theorem JSON_error_takes_precedence :
  forall (R W : Type) (UR : json.Unmarshaler R) (MW : json.Marshaler W)
         (h : Handler R W) (w w1 : http.ResponseWriter) (r : http.Request)
         (resp : option (Response W)) (e : error),
  h w (NewRequest r) = (w1, resp, Some e) ->
  JSON h w r = Returned (WriteJSONError w1 e)
  /\ forall resp' : option (Response W),
       JSON_respond (w1, resp', Some e) = JSON_respond (w1, resp, Some e).
Proof.
  intros R W UR MW h w w1 r resp e Hh.
  split.
  - unfold JSON. rewrite Hh. reflexivity.
  - intros resp'. reflexivity.
Qed.

Lemma JSON_error_takes_precedence_witness :
  JSON both [] (post "/add" onePlusTwo) =
    Returned [jsonContentType; http.WriteHeader 500;
              http.Write (messageBody "Internal server error")].
Proof.
  destruct (JSON_error_takes_precedence addRequest addResponse _ _ both [] []
              (post "/add" onePlusTwo)
              (Some (NewResponse (Some (mkAddResponse 3)))) (errors_New "boom") eq_refl)
    as [Hjson _].
  rewrite Hjson. reflexivity.
Defined.

(** C4, as the code has it: the call of the adapter's handler panics
    exactly when the handler returns a nil response together with a nil
    error; every other result makes it return.  A handler that returns
    (nil, nil) therefore takes the adapter into a nil pointer
    dereference. *)
Theorem JSON_panics_on_nil_response :
  (forall (W : Type) (MW : json.Marshaler W)
          (w : http.ResponseWriter) (resp : option (Response W)) (err : option error),
     JSON_respond (w, resp, err) = Panicked <-> resp = None /\ err = None)
  /\ forall (w : http.ResponseWriter) (r : http.Request), JSON nothing w r = Panicked.
Proof.
  split.
  - intros W MW w resp err. unfold JSON_respond.
    destruct err as [e|]; [split; [discriminate|intros [_ H]; discriminate]|].
    destruct resp as [resp|]; [|split; auto].
    destruct (resp_Data resp); split; try discriminate; intros [H _]; discriminate.
  - intros w r. reflexivity.
Qed.

(** C1, the claim as stated fails at the demo's own request: the body
    written for {"a":1,"b":2} is the payload's encoding {"result":3}, and
    reading it back gives the object with the member "result", not an
    object with a member "data".  It also fails for a status code of
    zero, which is written as 200. *)
Lemma JSON_body_is_not_wrapped :
  (let body := bytes_of ("{" ++ quoted "result" ++ ":3}")%string ++ [newline] in
   addHandler [] (post "/add" onePlusTwo) =
     Returned [jsonContentType; http.WriteHeader 200; http.Write body]
   /\ json.parse body = Some (json.Object [("result"%string, json.Number "3")])
   /\ json.parse body <>
        Some (json.Object
                [("data"%string, json.Object [("result"%string, json.Number "3")])])
   /\ body <>
        json.encode
          (json.Object
             [("data"%string, json.Object [("result"%string, json.Number "3")])])
   /\ body <>
        json.encode
          (json.Object
             [("data"%string, json.Object [("result"%string, json.Number "3")])])
        ++ [newline])
  /\ (exists tail,
        JSON zeroCode [] (post "/add" onePlusTwo) =
          Returned (jsonContentType :: http.WriteHeader 200 :: tail)
        /\ resp_StatusCode (NewResponseWithCode 0 (Some (mkAddResponse 3))) = 0
        /\ 200 <> 0).
Proof.
  split.
  - cbv zeta. split; [vm_compute; reflexivity|].
    split; [vm_compute; reflexivity|].
    split; [vm_compute; discriminate|].
    split; vm_compute; discriminate.
  - eexists. split; [vm_compute; reflexivity|]. split; [reflexivity|discriminate].
Qed.

(** C1, amended: when the handler returns a nil error and a response with
    status code C whose payload encodes to JSON, the adapter appends to
    the handler's calls the JSON content type, the status code C (200
    when C is zero) and one write of the payload's own encoding followed
    by a newline; the payload is not wrapped in a "data" member.  Posting
    {"a":1,"b":2} to the demo's add handler gives status 200, content
    type application/json and the body {"result":3}. *)
Theorem JSON_writes_payload :
  forall (R W : Type) (UR : json.Unmarshaler R) (MW : json.Marshaler W)
         (h : Handler R W) (w w1 : http.ResponseWriter) (r : http.Request)
         (resp : Response W) (d : W) (tree : json.value),
  h w (NewRequest r) = (w1, Some resp, None) ->
  resp_Data resp = Some d ->
  json.marshal d = Some tree ->
  JSON h w r =
    Returned (w1 ++ [jsonContentType;
                     http.WriteHeader
                       (if resp_StatusCode resp =? 0 then 200 else resp_StatusCode resp);
                     http.Write (json.encode tree ++ [newline])])
  /\ (let out := [jsonContentType; http.WriteHeader 200;
                  http.Write (bytes_of ("{" ++ quoted "result" ++ ":3}")%string
                              ++ [newline])] in
      addHandler [] (post "/add" onePlusTwo) = Returned out
      /\ http.status out = Some 200
      /\ http.header "Content-Type" out = Some "application/json"%string
      /\ http.written out = bytes_of ("{" ++ quoted "result" ++ ":3}")%string ++ [newline]).
Proof.
  intros R W UR MW h w w1 r resp d tree Hh Hd Hm.
  split.
  - unfold JSON. rewrite Hh. unfold JSON_respond. rewrite Hd.
    apply f_equal. apply WriteJSONCode_calls. exact Hm.
  - cbv zeta. split; [vm_compute; reflexivity|]. repeat split.
Qed.

Lemma JSON_writes_payload_witness :
  JSON add [] (post "/add" onePlusTwo) =
    Returned [jsonContentType; http.WriteHeader 200;
              http.Write (bytes_of ("{" ++ quoted "result" ++ ":3}")%string ++ [newline])].
Proof.
  destruct (JSON_writes_payload addRequest addResponse _ _ add [] []
              (post "/add" onePlusTwo) (NewResponse (Some (mkAddResponse 3)))
              (mkAddResponse 3)
              (json.Object [("result"%string, json.Number "3")]))
    as [Hjson _].
  - vm_compute. reflexivity.
  - reflexivity.
  - reflexivity.
  - rewrite Hjson. reflexivity.
Defined.

(** The demo's add handler on a request without a body: status 400 and
    the message of its BadRequestError. *)
Lemma addHandler_missing_body :
  addHandler [] (post "/add" []) =
    Returned [jsonContentType; http.WriteHeader 400;
              http.Write
                (bytes_of ("{" ++ quoted "message" ++ ":"
                           ++ quoted "Missing request data" ++ "}")%string
                 ++ [newline])].
Proof. vm_compute. reflexivity. Qed.

(** ** The request side of the adapter *)

Lemma scanBuffer_blank : forall content,
  json.nonSpace content = false ->
  json.scanBuffer json.reset content = json.NeedMore json.reset.
Proof.
  induction content as [|c content IH]; intros Hb; [reflexivity|].
  unfold json.nonSpace in *. simpl in Hb.
  apply orb_false_iff in Hb. destruct Hb as [Hc Hrest].
  apply negb_false_iff in Hc.
  simpl. unfold json.scan_step, json.do_stateBeginValue. simpl.
  rewrite Hc. rewrite (IH Hrest). reflexivity.
Qed.

Lemma scanContent_blank : forall content,
  json.nonSpace content = false ->
  scanContent content = json.ReadFails (json.ReadError io.EOF).
Proof.
  intros content Hb. unfold scanContent.
  rewrite (scanBuffer_blank content Hb), Hb. reflexivity.
Qed.


Lemma nonSpace_repeat_space : forall n, json.nonSpace (repeat " "%char n) = false.
Proof. induction n; [reflexivity|exact IHn]. Qed.



(** A body that is well-formed JSON of another type than the payload is
    not of that kind: the decoder allocates the payload before it finds
    the mismatch, and the handler sees a zero value. *)
Lemma NewRequest_wrong_type_allocates :
  req_Data (NewRequest (T:=addRequest) (post "/add" (bytes_of "5")))
  = Some (mkAddRequest 0 0).
Proof. vm_compute. reflexivity. Qed.

Lemma seen_post_padded :
  seen (post "/add" padded) = repeat " "%char (Z.to_nat (Z.shiftl 1 20)).
Proof.
  unfold seen, limited, post, http.content, padded. cbn [http.Body http.pending concat].
  rewrite app_nil_r, firstn_app, repeat_length, Nat.sub_diag.
  cbn [firstn]. rewrite app_nil_r.
  apply firstn_all2. rewrite repeat_length. apply Nat.le_refl.
Qed.

(** C6, the claim as stated fails on two bodies that are valid JSON and
    decode into the demo's request type without error: for the body null
    the payload stays nil, and for the demo's request after 2^20 bytes of
    white space the payload stays nil as well, because the value lies
    beyond the bytes that NewRequest reads. *)
Lemma NewRequest_valid_body_without_payload :
  (json.parse (bytes_of "null") = Some json.Null
   /\ json.unmarshalInto (bytes_of "null") (mkAddRequest 0 0) = (mkAddRequest 0 0, None)
   /\ req_Data (NewRequest (T:=addRequest) (post "/add" (bytes_of "null"))) = None)
  /\ (json.parse padded =
        Some (json.Object [("a"%string, json.Number "1"); ("b"%string, json.Number "2")])
      /\ json.unmarshalInto padded (mkAddRequest 0 0) = (mkAddRequest 1 2, None)
      /\ req_Data (NewRequest (T:=addRequest) (post "/add" padded)) = None).
Proof.
  split; (split; [vm_compute; reflexivity|]).
  - split; vm_compute; reflexivity.
  - split; [vm_compute; reflexivity|].
    destruct (NewRequest_spec (T:=addRequest) (post "/add" padded))
      as (body' & consumed & rest & Hreq & _ & _).
    assert (Hscan : scanContent (seen (post "/add" padded))
                    = json.ReadFails (json.ReadError io.EOF)).
    { rewrite seen_post_padded. apply scanContent_blank, nonSpace_repeat_space. }
    rewrite Hreq. cbn [req_Data]. unfold decodeData. rewrite Hscan. reflexivity.
Qed.

(** C6, amended: when the first 2^20 bytes of the body begin with a
    complete JSON value other than null, and that value decodes into R
    without error, the envelope's payload holds the decoded value when the
    handler is called. *)
Theorem NewRequest_populates_payload :
  forall (R W : Type) (UR : json.Unmarshaler R) (MW : json.Marshaler W)
         (h : Handler R W) (w : http.ResponseWriter) (r : http.Request)
         (n : nat) (v : R),
  scanContent (seen r) = json.ValueOfLength n ->
  json.isNull (firstn n (seen r)) = false ->
  json.unmarshalInto (firstn n (seen r)) json.zero = (v, None) ->
  req_Data (NewRequest (T:=R) r) = Some v
  /\ exists body',
       NewRequest (T:=R) r = mkReq (set_Body r body') (Some v)
       /\ JSON h w r = JSON_respond (h w (mkReq (set_Body r body') (Some v))).
Proof.
  intros R W UR MW h w r n v Hscan Hnull Hinto.
  destruct (NewRequest_spec (T:=R) r) as (body' & consumed & rest & Hreq & _ & _).
  assert (Hsome : decodeData (T:=R) (seen r) = Some v).
  { unfold decodeData. rewrite Hscan. unfold json.unmarshal.
    rewrite Hnull, Hinto. reflexivity. }
  rewrite Hsome in Hreq.
  split; [rewrite Hreq; reflexivity|].
  exists body'. split; [exact Hreq|].
  unfold JSON. rewrite Hreq. reflexivity.
Qed.

Lemma NewRequest_populates_payload_witness :
  req_Data (NewRequest (T:=addRequest) (post "/add" onePlusTwo))
  = Some (mkAddRequest 1 2).
Proof.
  apply (NewRequest_populates_payload addRequest addResponse _ _ add []
           (post "/add" onePlusTwo) 13%nat (mkAddRequest 1 2));
    vm_compute; reflexivity.
Defined.

(** C9: NewRequest takes at most 2^20 bytes off the body stream: the bytes
    it has read are a prefix of the body of at most 2^20 bytes; what
    follows the first 2^20 bytes is still in the stream afterwards; the
    payload is a function of the first 2^20 bytes alone, so that two
    bodies that agree on them give the same payload; and a longer body is
    no error: NewRequest returns an envelope and the adapter calls the
    handler with it. *)
Theorem NewRequest_reads_at_most_limit :
  forall (R W : Type) (UR : json.Unmarshaler R) (MW : json.Marshaler W)
         (h : Handler R W) (w : http.ResponseWriter) (r : http.Request),
  exists consumed unread,
    http.content (http.Body r)
      = consumed ++ http.content (http.Body (req_Request (NewRequest (T:=R) r)))
    /\ Z.of_nat (length consumed) <= 2 ^ 20
    /\ http.content (http.Body (req_Request (NewRequest (T:=R) r)))
       = unread ++ skipn (Z.to_nat (2 ^ 20)) (http.content (http.Body r))
    /\ req_Data (NewRequest (T:=R) r)
       = decodeData (firstn (Z.to_nat (2 ^ 20)) (http.content (http.Body r)))
    /\ (forall r' : http.Request,
         firstn (Z.to_nat (2 ^ 20)) (http.content (http.Body r'))
         = firstn (Z.to_nat (2 ^ 20)) (http.content (http.Body r)) ->
         req_Data (NewRequest (T:=R) r') = req_Data (NewRequest (T:=R) r))
    /\ JSON h w r = JSON_respond (h w (NewRequest r)).
Proof.
  intros R W UR MW h w r.
  destruct (NewRequest_spec (T:=R) r) as (body' & consumed & rest & Hreq & Hc & Hs).
  exists consumed, rest. rewrite Hreq. cbn [req_Request req_Data set_Body http.Body].
  split; [exact Hc|].
  split.
  { assert (Hlen : (length (seen r) <= Z.to_nat (Z.shiftl 1 20))%nat)
      by apply firstn_le_length.
    rewrite Hs, length_app in Hlen.
    change (Z.shiftl 1 20) with (2 ^ 20) in Hlen. lia. }
  split.
  { apply (app_inv_head consumed). rewrite <- Hc, app_assoc, <- Hs.
    unfold seen, limited. change (Z.shiftl 1 20) with (2 ^ 20).
    symmetry. apply firstn_skipn. }
  split; [reflexivity|].
  split.
  - intros r' Hsame.
    destruct (NewRequest_spec (T:=R) r') as (b2 & c2 & rest2 & Hreq' & _ & _).
    rewrite Hreq'. cbn [req_Data]. unfold seen, limited.
    change (Z.shiftl 1 20) with (2 ^ 20). rewrite Hsame. reflexivity.
  - unfold JSON. rewrite Hreq. reflexivity.
Qed.

Lemma NewRequest_reads_at_most_limit_witness :
  req_Data (NewRequest (T:=addRequest)
              (http.mkRequest "POST" "/add"
                 (http.mkBody [firstn 5 onePlusTwo; skipn 5 onePlusTwo])))
  = req_Data (NewRequest (T:=addRequest) (post "/add" onePlusTwo)).
Proof.
  destruct (NewRequest_reads_at_most_limit addRequest addResponse _ _ add []
              (post "/add" onePlusTwo))
    as (consumed & unread & _ & _ & _ & _ & Hsame & _).
  apply Hsame. vm_compute. reflexivity.
Defined.

(** ** Further properties of the response side *)

Lemma WriteJSONCode_any {A : Type} `{json.Marshaler A}
    (w : http.ResponseWriter) (code : Z) (data : A) :
  WriteJSONCode w code data =
    w ++ jsonContentType
      :: http.WriteHeader (if code =? 0 then 200 else code)
      :: match json.marshal data with
         | Some tree => [http.Write (json.encode tree ++ [newline])]
         | None => []
         end.
Proof.
  unfold WriteJSONCode, json.Encode, http.do_Write, http.do_WriteHeader,
    http.Header_Set, jsonContentType.
  destruct (json.marshal data); rewrite <- !app_assoc; reflexivity.
Qed.

(** X1: WriteJSON sets the JSON content type, writes status 200 and
    writes the encoding of the data followed by a newline; WriteJSONCode
    with code 0 does exactly the same. *)
Theorem WriteJSON_writes_200 :
  forall (A : Type) (MA : json.Marshaler A) (w : http.ResponseWriter)
         (data : A) (tree : json.value),
  json.marshal data = Some tree ->
  WriteJSON w data =
    w ++ [jsonContentType; http.WriteHeader 200;
          http.Write (json.encode tree ++ [newline])]
  /\ WriteJSONCode w 0 data = WriteJSON w data.
Proof.
  intros A MA w data tree Hm. unfold WriteJSON.
  rewrite !WriteJSONCode_any, Hm. split; reflexivity.
Qed.

Lemma WriteJSON_writes_200_witness :
  WriteJSON [] (mkAddResponse 3) =
    [jsonContentType; http.WriteHeader 200; http.Write (resultBody 3)].
Proof.
  destruct (WriteJSON_writes_200 addResponse _ [] (mkAddResponse 3)
              (json.Object [("result"%string, json.Number "3")]) eq_refl)
    as [Hw _].
  rewrite Hw. reflexivity.
Defined.

Lemma written_app (w1 w2 : http.ResponseWriter) :
  http.written (w1 ++ w2) = http.written w1 ++ http.written w2.
Proof.
  induction w1 as [|c w1 IH]; [reflexivity|].
  destruct c; simpl; rewrite ?IH, ?app_assoc; reflexivity.
Qed.

(** X2: when the payload cannot be encoded, the adapter has already set
    the content type and written the status code (200 for a zero code)
    when the encoder fails: the response has a status and no body, and the
    failure is not reported. *)
Theorem JSON_unencodable_payload :
  forall (R W : Type) (UR : json.Unmarshaler R) (MW : json.Marshaler W)
         (h : Handler R W) (w w1 : http.ResponseWriter) (r : http.Request)
         (resp : Response W) (d : W),
  h w (NewRequest r) = (w1, Some resp, None) ->
  resp_Data resp = Some d ->
  json.marshal d = None ->
  JSON h w r =
    Returned (w1 ++ [jsonContentType;
                     http.WriteHeader
                       (if resp_StatusCode resp =? 0 then 200 else resp_StatusCode resp)])
  /\ http.written (w1 ++ [jsonContentType;
                          http.WriteHeader
                            (if resp_StatusCode resp =? 0 then 200
                             else resp_StatusCode resp)])
     = http.written w1.
Proof.
  intros R W UR MW h w w1 r resp d Hh Hd Hm.
  split.
  - unfold JSON. rewrite Hh. unfold JSON_respond. rewrite Hd.
    rewrite WriteJSONCode_any.
    unfold json.marshal at 1, pointer_Marshaler. rewrite Hm. reflexivity.
  - rewrite written_app. apply app_nil_r.
Qed.

Lemma JSON_unencodable_payload_witness :
  JSON unencodable [] (post "/" []) =
    Returned [jsonContentType; http.WriteHeader 201].
Proof.
  destruct (JSON_unencodable_payload addRequest channel _ _ unencodable [] []
              (post "/" []) (NewResponseWithCode 201 (Some Chan)) Chan
              eq_refl eq_refl eq_refl) as [Hjson _].
  rewrite Hjson. reflexivity.
Defined.

(** X3: whatever the handler returns, the adapter keeps the calls the
    handler made on the response writer, in their order, and adds after
    them nothing, or the content type and one status, or those and one
    body write: it never writes two statuses or two bodies, and never a
    body without the content type and the status before it. *)
Theorem JSON_adds_one_rendering :
  forall (R W : Type) (UR : json.Unmarshaler R) (MW : json.Marshaler W)
         (h : Handler R W) (w : http.ResponseWriter) (r : http.Request),
  match JSON h w r with
  | Returned w' =>
      exists added,
        w' = fst (fst (h w (NewRequest r))) ++ added /\ rendering added
  | Panicked => True
  end.
Proof.
  intros R W UR MW h w r. unfold JSON.
  destruct (h w (NewRequest r)) as [[w1 resp] err]. cbn [fst JSON_respond].
  destruct err as [e|].
  - rewrite WriteJSONError_calls. eexists. split; [reflexivity|constructor].
  - destruct resp as [resp|]; [|exact I].
    destruct (resp_Data resp) as [d|].
    + rewrite WriteJSONCode_any.
      destruct (json.marshal (Some d)); eexists; (split; [reflexivity|constructor]).
    + exists []. rewrite app_nil_r. split; [reflexivity|constructor].
Qed.

(** X4: the message of a BadRequestError is never empty: HTTPError
    returns the Message field when that is not empty and a text of its own
    otherwise, and Error returns the same string as HTTPError. *)
Theorem BadRequestError_message_not_empty :
  forall e : BadRequestError,
  BadRequestError_HTTPError e <> ""%string
  /\ BadRequestError_Error e = BadRequestError_HTTPError e
  /\ HTTPError (BadRequestError_error e) = Some (BadRequestError_HTTPError e)
  /\ Error (BadRequestError_error e) <> ""%string.
Proof.
  intros e.
  assert (H : BadRequestError_HTTPError e <> ""%string).
  { unfold BadRequestError_HTTPError.
    destruct (String.eqb (Message e) "") eqn:E; simpl; [discriminate|].
    apply String.eqb_neq in E. exact E. }
  repeat split; auto.
Qed.

(** ** Further properties of the demo's add handler *)

Lemma wrap64_range (z : Z) : - 2 ^ 63 <= wrap64 z < 2 ^ 63.
Proof.
  unfold wrap64.
  pose proof (Z.mod_pos_bound (z + 2 ^ 63) (2 ^ 64) ltac:(lia)). lia.
Qed.

Lemma wrap64_small (z : Z) : - 2 ^ 63 <= z < 2 ^ 63 -> wrap64 z = z.
Proof.
  intros H. unfold wrap64. rewrite Z.mod_small; lia.
Qed.

Lemma resultBody_encode (n : Z) :
  json.encode (json.Object [("result"%string, json.Number (json.itoa n))]) ++ [newline]
  = resultBody n.
Proof.
  unfold resultBody. cbn -[json.itoa]. unfold bytes_of.
  rewrite <- !app_assoc. reflexivity.
Qed.

Lemma add_sum (w : http.ResponseWriter) (req : Request addRequest) (data : addRequest) :
  req_Data req = Some data ->
  JSON_respond (add w req) =
    Returned (w ++ [jsonContentType; http.WriteHeader 200;
                    http.Write (resultBody (wrap64 (A data + B data)))]).
Proof.
  intros Hd. unfold add. rewrite Hd.
  cbn [JSON_respond NewResponse NewResponseWithCode resp_Data resp_StatusCode].
  rewrite (WriteJSONCode_calls _ _ _
             (json.Object [("result"%string,
                            json.Number (json.itoa (wrap64 (A data + B data))))]))
    by reflexivity.
  rewrite resultBody_encode. reflexivity.
Qed.

(** X5: the demo's add handler behind the adapter never panics and always
    answers with one JSON rendering: status 400 and the message "Missing
    request data" when the request has no payload; otherwise status 200
    and the sum of the two fields, computed in 64-bit two's complement
    (equal to the exact sum when that fits). *)
Theorem addHandler_answers :
  forall (w : http.ResponseWriter) (r : http.Request),
  match req_Data (NewRequest (T:=addRequest) r) with
  | None =>
      addHandler w r =
        Returned (w ++ [jsonContentType; http.WriteHeader 400;
                        http.Write (messageBody "Missing request data")])
  | Some data =>
      addHandler w r =
        Returned (w ++ [jsonContentType; http.WriteHeader 200;
                        http.Write (resultBody (wrap64 (A data + B data)))])
      /\ - 2 ^ 63 <= wrap64 (A data + B data) < 2 ^ 63
      /\ (- 2 ^ 63 <= A data + B data < 2 ^ 63 ->
          wrap64 (A data + B data) = A data + B data)
  end.
Proof.
  intros w r. unfold addHandler, JSON.
  destruct (req_Data (NewRequest r)) as [data|] eqn:Hd.
  - split; [|split; [apply wrap64_range|apply wrap64_small]].
    apply add_sum. exact Hd.
  - unfold add. rewrite Hd. cbn [JSON_respond].
    rewrite WriteJSONError_calls. reflexivity.
Qed.

(** ** Further properties of the request side *)

Lemma seen_short (r : http.Request) :
  Z.of_nat (length (http.content (http.Body r))) <= 2 ^ 20 ->
  seen r = http.content (http.Body r).
Proof.
  intros Hlen. unfold seen, limited. apply firstn_all2.
  change (Z.shiftl 1 20) with (2 ^ 20). lia.
Qed.

Lemma scanContent_complete_prefix (text more : bytes) :
  json.scanBuffer json.reset text = json.ValueEnds (length text) ->
  scanContent (text ++ more) = json.ValueOfLength (length text).
Proof.
  intros Hscan. unfold scanContent. rewrite scanBuffer_app, Hscan. reflexivity.
Qed.

(** X6: NewRequest decodes the first JSON value of the body and ignores
    what follows it: when the body is a complete object or array of at
    most 2^20 bytes, any bytes sent after it leave the payload as it is
    without them. *)
Theorem NewRequest_ignores_trailing_bytes :
  forall (R : Type) (UR : json.Unmarshaler R) (r r' : http.Request) (junk : bytes),
  json.scanBuffer json.reset (http.content (http.Body r))
    = json.ValueEnds (length (http.content (http.Body r))) ->
  Z.of_nat (length (http.content (http.Body r))) <= 2 ^ 20 ->
  http.content (http.Body r') = http.content (http.Body r) ++ junk ->
  req_Data (NewRequest (T:=R) r') = req_Data (NewRequest (T:=R) r)
  /\ req_Data (NewRequest (T:=R) r)
     = fst (json.unmarshal (http.content (http.Body r)) None).
Proof.
  intros R UR r r' junk Hscan Hlen Hmore.
  destruct (NewRequest_spec (T:=R) r) as (b1 & c1 & rest1 & Hreq & _ & _).
  destruct (NewRequest_spec (T:=R) r') as (b2 & c2 & rest2 & Hreq' & _ & _).
  rewrite Hreq, Hreq'. cbn [req_Data].
  set (text := http.content (http.Body r)) in *.
  assert (Hseen : seen r = text) by (apply seen_short; exact Hlen).
  assert (Hseen' : exists more, seen r' = text ++ more).
  { unfold seen, limited. rewrite Hmore, firstn_app.
    rewrite (firstn_all2 text) by (change (Z.shiftl 1 20) with (2 ^ 20); lia).
    eexists. reflexivity. }
  destruct Hseen' as [more Hseen'].
  assert (Hd : forall more', decodeData (T:=R) (text ++ more')
                             = fst (json.unmarshal text None)).
  { intros more'. unfold decodeData.
    rewrite (scanContent_complete_prefix text more' Hscan).
    rewrite firstn_app, Nat.sub_diag, firstn_all. cbn [firstn].
    rewrite app_nil_r. reflexivity. }
  assert (Hd0 : decodeData (T:=R) text = fst (json.unmarshal text None)).
  { rewrite <- (app_nil_r text) at 1. apply Hd. }
  rewrite Hseen', Hseen, Hd, Hd0. split; reflexivity.
Qed.

Lemma NewRequest_ignores_trailing_bytes_witness :
  req_Data (NewRequest (T:=addRequest)
              (post "/add" (onePlusTwo ++ bytes_of "} trailing {")))
  = req_Data (NewRequest (T:=addRequest) (post "/add" onePlusTwo)).
Proof.
  apply (NewRequest_ignores_trailing_bytes addRequest _
           (post "/add" onePlusTwo)
           (post "/add" (onePlusTwo ++ bytes_of "} trailing {"))
           (bytes_of "} trailing {")).
  - vm_compute. reflexivity.
  - vm_compute. discriminate.
  - vm_compute. reflexivity.
Defined.

(** X7: a body that is well-formed JSON but neither an object nor null (a
    number, a string, a boolean or an array) is not turned away: the
    decoder allocates the payload before it meets the type mismatch, so
    the add handler's nil test passes and it answers 200 with the sum of
    two zero fields. *)
Theorem addHandler_accepts_wrong_type :
  forall (w : http.ResponseWriter) (r : http.Request) (n : nat),
  scanContent (seen r) = json.ValueOfLength n ->
  json.isNull (firstn n (seen r)) = false ->
  (forall ms, json.parse (firstn n (seen r)) <> Some (json.Object ms)) ->
  req_Data (NewRequest (T:=addRequest) r) = Some (mkAddRequest 0 0)
  /\ addHandler w r =
       Returned (w ++ [jsonContentType; http.WriteHeader 200;
                       http.Write (resultBody 0)]).
Proof.
  intros w r n Hscan Hnull Hparse.
  destruct (NewRequest_spec (T:=addRequest) r) as (b1 & c1 & rest1 & Hreq & _ & _).
  assert (Hd : decodeData (T:=addRequest) (seen r) = Some (mkAddRequest 0 0)).
  { unfold decodeData. rewrite Hscan. unfold json.unmarshal. rewrite Hnull.
    cbn [json.unmarshalInto json.zero addRequest_Unmarshaler].
    destruct (json.parse (firstn n (seen r))) as [tree|] eqn:Hp; [|reflexivity].
    destruct tree; try reflexivity.
    exfalso. eapply Hparse. reflexivity. }
  rewrite Hd in Hreq. split; [rewrite Hreq; reflexivity|].
  unfold addHandler, JSON. rewrite Hreq.
  rewrite (add_sum w _ (mkAddRequest 0 0)) by reflexivity. reflexivity.
Qed.

Lemma addHandler_accepts_wrong_type_witness :
  addHandler [] (post "/add" (bytes_of "[1,2]")) =
    Returned [jsonContentType; http.WriteHeader 200; http.Write (resultBody 0)].
Proof.
  apply (addHandler_accepts_wrong_type [] (post "/add" (bytes_of "[1,2]")) 5%nat).
  - vm_compute. reflexivity.
  - vm_compute. reflexivity.
  - intros ms. vm_compute. discriminate.
Defined.

(** ** The encoder's strings under the scanner *)

Lemma scan_printByte : forall c ps,
  json.scanBuffer (inString ps) (printByte c) = json.NeedMore (inString ps)
  \/ (128 <= N_of_ascii c)%N.
Proof.
  intros c ps.
  destruct c as [[] [] [] [] [] [] [] []];
    try (right; vm_compute; discriminate);
    left; reflexivity.
Qed.

Lemma scan_high_byte : forall c ps,
  (128 <= N_of_ascii c)%N ->
  json.scan_step (inString ps) c = (inString ps, json.scanContinue).
Proof.
  intros c ps H.
  destruct c as [[] [] [] [] [] [] [] []];
    try reflexivity; exfalso; apply H; reflexivity.
Qed.

Lemma scan_high : forall bs ps,
  Forall (fun c => (128 <= N_of_ascii c)%N) bs ->
  json.scanBuffer (inString ps) bs = json.NeedMore (inString ps).
Proof.
  induction bs as [|c bs IH]; intros ps Hall; [reflexivity|].
  inversion Hall as [|? ? Hc Hbs]; subst.
  cbn [json.scanBuffer]. rewrite (scan_high_byte c ps Hc).
  rewrite (IH ps Hbs). reflexivity.
Qed.

Lemma between_high (lo hi : N) (c : ascii) :
  (128 <= lo)%N -> utf8.between lo hi c = true -> (128 <= N_of_ascii c)%N.
Proof.
  unfold utf8.between. intros Hlo H.
  apply andb_true_iff in H. destruct H as [H _]. apply N.leb_le in H. lia.
Qed.

(** A rune that starts with a byte of 128 or more is either an encoding
    error of width 1, or it is 2 to 4 bytes wide and all its bytes are
    128 or more. *)
Lemma DecodeRune_high : forall c0 rest rune size,
  (128 <= N_of_ascii c0)%N ->
  utf8.DecodeRune (c0 :: rest) = (rune, size) ->
  (rune = utf8.RuneError /\ size = 1%nat)
  \/ ((2 <= size <= 4)%nat /\ (size <= length (c0 :: rest))%nat
      /\ Forall (fun c => (128 <= N_of_ascii c)%N) (firstn size (c0 :: rest))).
Proof.
  intros c0 rest rune size Hc0. unfold utf8.DecodeRune.
  destruct (N_of_ascii c0 <? 128)%N eqn:E0; [apply N.ltb_lt in E0; lia|].
  destruct ((194 <=? N_of_ascii c0) && (N_of_ascii c0 <=? 223))%N.
  { destruct rest as [|c1 rest]; [intros H; injection H as <- <-; auto|].
    destruct (utf8.between 128 191 c1) eqn:B1; intros H; injection H as <- <-; auto.
    right. repeat split; simpl; try lia.
    assert (128 <= N_of_ascii c1)%N by (eapply between_high; [|exact B1]; lia).
    repeat constructor; assumption. }
  destruct ((224 <=? N_of_ascii c0) && (N_of_ascii c0 <=? 239))%N.
  { destruct rest as [|c1 [|c2 rest]];
      try (intros H; injection H as <- <-; auto; fail).
    intros H.
    destruct (utf8.between _ _ c1) eqn:B1; cbn [andb] in H;
      [|injection H as <- <-; auto].
    destruct (utf8.between 128 191 c2) eqn:B2; injection H as <- <-; auto.
    right. repeat split; simpl; try lia.
    assert (128 <= N_of_ascii c1)%N.
    { eapply between_high; [|exact B1]. destruct (N_of_ascii c0 =? 224)%N; lia. }
    assert (128 <= N_of_ascii c2)%N by (eapply between_high; [|exact B2]; lia).
    repeat constructor; assumption. }
  destruct ((240 <=? N_of_ascii c0) && (N_of_ascii c0 <=? 244))%N.
  { destruct rest as [|c1 [|c2 [|c3 rest]]];
      try (intros H; injection H as <- <-; auto; fail).
    intros H.
    destruct (utf8.between _ _ c1) eqn:B1; cbn [andb] in H;
      [|injection H as <- <-; auto].
    destruct (utf8.between 128 191 c2) eqn:B2; cbn [andb] in H;
      [|injection H as <- <-; auto].
    destruct (utf8.between 128 191 c3) eqn:B3; injection H as <- <-; auto.
    right. repeat split; simpl; try lia.
    assert (128 <= N_of_ascii c1)%N.
    { eapply between_high; [|exact B1]. destruct (N_of_ascii c0 =? 240)%N; lia. }
    assert (128 <= N_of_ascii c2)%N by (eapply between_high; [|exact B2]; lia).
    assert (128 <= N_of_ascii c3)%N by (eapply between_high; [|exact B3]; lia).
    repeat constructor; assumption. }
  intros H; injection H as <- <-; auto.
Qed.

Lemma scan_appendString_loop : forall fuel src ps,
  json.scanBuffer (inString ps) (json.appendString_loop fuel src)
  = json.NeedMore (inString ps).
Proof.
  induction fuel as [|fuel IH]; intros src ps; [destruct src; reflexivity|].
  destruct src as [|c rest]; [reflexivity|].
  cbn [json.appendString_loop].
  destruct (N_of_ascii c <? 128)%N eqn:Hc.
  - apply N.ltb_lt in Hc.
    change (if json.htmlSafe c then [c] else json.escapeByte c) with (printByte c).
    rewrite scanBuffer_app.
    destruct (scan_printByte c ps) as [Hp|Hhigh]; [|lia].
    rewrite Hp, IH. reflexivity.
  - apply N.ltb_ge in Hc.
    destruct (utf8.DecodeRune (firstn 4 (c :: rest))) as [rune size] eqn:Hrune.
    change (firstn 4 (c :: rest)) with (c :: firstn 3 rest) in Hrune.
    destruct (DecodeRune_high _ _ _ _ Hc Hrune) as [[-> ->]|(Hsize & Hlen & Hall)].
    + change ((utf8.RuneError =? utf8.RuneError)%N && (1 =? 1)%nat) with true.
      cbv iota. rewrite scanBuffer_app.
      change (json.scanBuffer (inString ps) (bytes_of "\ufffd"))
        with (json.NeedMore (inString ps)).
      cbn [offset]. rewrite IH. reflexivity.
    + replace ((rune =? utf8.RuneError)%N && (size =? 1)%nat) with false
        by (destruct (size =? 1)%nat eqn:E;
            [apply Nat.eqb_eq in E; lia|rewrite andb_false_r; reflexivity]).
      destruct ((rune =? 8232)%N || (rune =? 8233)%N) eqn:Hsep.
      * apply orb_true_iff in Hsep.
        destruct Hsep as [E|E]; apply N.eqb_eq in E; subst rune;
          rewrite app_assoc, scanBuffer_app;
          match goal with
          | |- context [json.scanBuffer (inString ps) (?a ++ [?h])] =>
              change (json.scanBuffer (inString ps) (a ++ [h]))
                with (json.NeedMore (inString ps))
          end;
          cbn [offset]; rewrite IH; reflexivity.
      * rewrite scanBuffer_app.
        assert (Hraw : Forall (fun c => (128 <= N_of_ascii c)%N)
                         (firstn size (c :: rest))).
        { change (c :: firstn 3 rest) with (firstn 4 (c :: rest)) in Hall.
          rewrite firstn_firstn in Hall.
          replace (Nat.min size 4) with size in Hall by lia. exact Hall. }
        rewrite (scan_high _ ps Hraw), IH. reflexivity.
Qed.

Lemma messageBody_shape (m : string) :
  json.encode (json.Object [("message"%string, json.Str m)])
  = bytes_of ("{" ++ quoted "message" ++ ":")%string
    ++ dquote :: json.appendString_loop (length (bytes_of m)) (bytes_of m)
    ++ [dquote; "}"%char].
Proof.
  cbn [json.encode map fst snd json.join].
  change (json.appendString "message") with (bytes_of (quoted "message")).
  unfold json.appendString.
  cbn [app bytes_of list_ascii_of_string quoted String.append].
  rewrite <- ?app_assoc. reflexivity.
Qed.

Lemma messageBody_scans (m : string) :
  let text := json.encode (json.Object [("message"%string, json.Str m)]) in
  json.scanBuffer json.reset text = json.ValueEnds (length text)
  /\ opensComposite text = true.
Proof.
  cbv zeta. rewrite messageBody_shape. split; [|reflexivity].
  set (P := bytes_of ("{" ++ quoted "message" ++ ":")%string).
  set (L := json.appendString_loop (length (bytes_of m)) (bytes_of m)).
  change (P ++ dquote :: L ++ [dquote; "}"%char])
    with ((P ++ [dquote]) ++ (L ++ [dquote; "}"%char])).
  rewrite scanBuffer_app.
  change (json.scanBuffer json.reset (P ++ [dquote]))
    with (json.NeedMore (inString [json.parseObjectValue])).
  cbn [offset]. rewrite scanBuffer_app. unfold L at 1.
  rewrite scan_appendString_loop. cbn [offset].
  change (json.scanBuffer (inString [json.parseObjectValue]) [dquote; "}"%char])
    with (json.ValueEnds 2).
  cbn [offset]. f_equal. rewrite !length_app. cbn [length]. lia.
Qed.

(** X8: whatever the error and its message, the body that WriteJSONError
    writes is well-formed JSON: one complete object, which the scanner
    accepts up to its last byte, followed by a newline.  Quotes, control
    characters, HTML characters and bytes that are not UTF-8 in the
    message are all escaped by the encoder. *)
Theorem WriteJSONError_body_is_wellformed :
  forall (w : http.ResponseWriter) (err : error),
  exists (code : Z) (text : bytes),
    WriteJSONError w err =
      w ++ [jsonContentType; http.WriteHeader code; http.Write (text ++ [newline])]
    /\ opensComposite text = true
    /\ json.scanBuffer json.reset text = json.ValueEnds (length text)
    /\ scanContent (text ++ [newline]) = json.ValueOfLength (length text).
Proof.
  intros w err. rewrite WriteJSONError_calls. unfold messageBody.
  eexists. eexists. split; [reflexivity|].
  destruct (messageBody_scans
              (match HTTPError err with
               | Some m => m
               | None => "Internal server error"%string
               end)) as [Hscan Hopen].
  split; [exact Hopen|]. split; [exact Hscan|].
  apply scanContent_complete_prefix. exact Hscan.
Qed.

(** ** Reading back what the encoder prints *)

Lemma printByte_not_nil (c : ascii) : (1 <= length (printByte c))%nat.
Proof. destruct c as [[] [] [] [] [] [] [] []]; vm_compute; lia. Qed.

Lemma unquote_printByte : forall c fuel tail,
  (N_of_ascii c < 128)%N ->
  json.unquote_loop (S fuel) (printByte c ++ tail)
  = json.prepend [c] (json.unquote_loop fuel tail).
Proof.
  intros c fuel tail H.
  destruct c as [[] [] [] [] [] [] [] []];
    try reflexivity; exfalso; revert H; vm_compute; congruence.
Qed.

Lemma appendString_loop_ascii : forall src fuel,
  Forall (fun c => (N_of_ascii c < 128)%N) src ->
  (length src <= fuel)%nat ->
  json.appendString_loop fuel src = flat_map printByte src.
Proof.
  induction src as [|c src IH]; intros fuel Hall Hfuel.
  - destruct fuel; reflexivity.
  - destruct fuel as [|fuel]; [simpl in Hfuel; lia|].
    inversion Hall as [|? ? Hc Hsrc]; subst.
    cbn [json.appendString_loop flat_map].
    apply N.ltb_lt in Hc. rewrite Hc.
    rewrite (IH fuel Hsrc) by (simpl in Hfuel; lia). reflexivity.
Qed.

Lemma unquote_printed : forall src fuel rest,
  Forall (fun c => (N_of_ascii c < 128)%N) src ->
  (length src < fuel)%nat ->
  json.unquote_loop fuel (flat_map printByte src ++ dquote :: rest)
  = Some (src, rest).
Proof.
  induction src as [|c src IH]; intros fuel rest Hall Hfuel.
  - destruct fuel as [|fuel]; [lia|]. reflexivity.
  - destruct fuel as [|fuel]; [lia|].
    inversion Hall as [|? ? Hc Hsrc]; subst.
    cbn [flat_map]. rewrite <- app_assoc.
    rewrite (unquote_printByte c fuel _ Hc).
    rewrite (IH fuel rest Hsrc) by (simpl in Hfuel; lia). reflexivity.
Qed.

Lemma length_printed (src : bytes) : (length src <= length (flat_map printByte src))%nat.
Proof.
  induction src as [|c src IH]; [reflexivity|].
  cbn [flat_map]. rewrite length_app. pose proof (printByte_not_nil c).
  simpl. lia.
Qed.

Lemma parseValue_object_key : forall fuel afterq,
  json.parseValue (S fuel) ("{"%char :: dquote :: afterq) =
  match json.parseMembers fuel (dquote :: afterq) with
  | Some (ms, rest') => Some (json.Object ms, rest')
  | None => None
  end.
Proof. reflexivity. Qed.

Lemma parseMembers_key : forall fuel afterq,
  json.parseMembers (S fuel) (dquote :: afterq) =
  match json.unquote_loop (S (length afterq)) afterq with
  | None => None
  | Some (key, rest) =>
      match json.skipSpace rest with
      | ":"%char :: rest1 =>
          match json.parseValue fuel rest1 with
          | None => None
          | Some (v, rest2) =>
              let m := (string_of_list_ascii key, v) in
              match json.skipSpace rest2 with
              | ","%char :: rest3 =>
                  match json.parseMembers fuel rest3 with
                  | Some (ms, rest4) => Some (m :: ms, rest4)
                  | None => None
                  end
              | "}"%char :: rest3 => Some ([m], rest3)
              | _ => None
              end
          end
      | _ => None
      end
  end.
Proof. reflexivity. Qed.

Lemma parseValue_string : forall fuel rest,
  json.parseValue (S fuel) (dquote :: rest) =
  match json.unquote_loop (S (length rest)) rest with
  | Some (str, rest') => Some (json.Str (string_of_list_ascii str), rest')
  | None => None
  end.
Proof. reflexivity. Qed.

Lemma unquote_printed_enough : forall src rest,
  Forall (fun c => (N_of_ascii c < 128)%N) src ->
  json.unquote_loop (S (length (flat_map printByte src ++ dquote :: rest)))
    (flat_map printByte src ++ dquote :: rest)
  = Some (src, rest).
Proof.
  intros src rest Hall. apply unquote_printed; [exact Hall|].
  rewrite length_app. pose proof (length_printed src). lia.
Qed.

(** An object with one member whose value is a string, as the encoder
    prints it for names and values below [utf8.RuneSelf], reads back as
    that member. *)
Lemma parseValue_string_member : forall fuel key val tail,
  Forall (fun c => (N_of_ascii c < 128)%N) key ->
  Forall (fun c => (N_of_ascii c < 128)%N) val ->
  json.parseValue (S (S (S fuel)))
    ("{"%char :: dquote :: flat_map printByte key
     ++ dquote :: ":"%char :: dquote :: flat_map printByte val
     ++ dquote :: "}"%char :: tail)
  = Some (json.Object [(string_of_list_ascii key, json.Str (string_of_list_ascii val))],
          tail).
Proof.
  intros fuel key val tail Hkey Hval.
  rewrite parseValue_object_key, parseMembers_key.
  rewrite (unquote_printed_enough key _ Hkey).
  change (json.skipSpace (":"%char :: dquote :: flat_map printByte val
                          ++ dquote :: "}"%char :: tail))
    with (":"%char :: dquote :: flat_map printByte val ++ dquote :: "}"%char :: tail).
  cbv iota beta. rewrite parseValue_string.
  rewrite (unquote_printed_enough val _ Hval).
  reflexivity.
Qed.

Lemma isASCII_Forall (m : string) :
  isASCII m = true -> Forall (fun c => (N_of_ascii c < 128)%N) (bytes_of m).
Proof.
  unfold isASCII. rewrite forallb_forall. intros H.
  apply Forall_forall. intros c Hin. apply N.ltb_lt. auto.
Qed.

Lemma parse_messageBody (m : string) :
  isASCII m = true ->
  json.parse (messageBody m) = Some (json.Object [("message"%string, json.Str m)]).
Proof.
  intros Hascii. apply isASCII_Forall in Hascii.
  unfold messageBody. rewrite messageBody_shape.
  rewrite (appendString_loop_ascii _ _ Hascii (Nat.le_refl _)).
  set (L := flat_map printByte (bytes_of m)).
  assert (Hshape :
    (bytes_of ("{" ++ quoted "message" ++ ":")%string
     ++ dquote :: L ++ [dquote; "}"%char]) ++ [newline]
    = "{"%char :: dquote :: flat_map printByte (bytes_of "message")
      ++ dquote :: ":"%char :: dquote :: L ++ dquote :: "}"%char :: [newline]).
  { cbn [bytes_of list_ascii_of_string quoted String.append app flat_map].
    change (printByte "m") with ["m"%char]. change (printByte "e") with ["e"%char].
    change (printByte "s") with ["s"%char]. change (printByte "a") with ["a"%char].
    change (printByte "g") with ["g"%char].
    cbn [app]. rewrite <- app_assoc. reflexivity. }
  rewrite Hshape. unfold json.parse.
  match goal with
  | |- context [json.parseValue (S (length ?t)) ?t] =>
      assert (Hlen : exists fuel, length t = S (S fuel))
        by (cbn [length]; eauto)
  end.
  destruct Hlen as [fuel ->].
  unfold L.
  rewrite (parseValue_string_member fuel _ _ [newline]
             (isASCII_Forall "message" eq_refl) Hascii).
  cbn [json.nonSpace existsb]. 
  change (negb (json.isSpace newline) || false) with false. cbv iota.
  unfold bytes_of. rewrite !string_of_list_ascii_of_string. reflexivity.
Qed.

(** X9: for a message whose bytes are all below 128, reading back the
    body that WriteJSONError writes gives the object with the single
    member "message" holding exactly the error's message (or the fixed
    text when the error has no HTTPError method): the encoder's escapes
    are undone by the decoder. *)
Theorem WriteJSONError_message_round_trip :
  forall (w : http.ResponseWriter) (err : error),
  let m := match HTTPError err with
           | Some m => m
           | None => "Internal server error"%string
           end in
  isASCII m = true ->
  exists (code : Z) (body : bytes),
    WriteJSONError w err = w ++ [jsonContentType; http.WriteHeader code; http.Write body]
    /\ json.parse body = Some (json.Object [("message"%string, json.Str m)]).
Proof.
  intros w err m Hascii. rewrite WriteJSONError_calls.
  eexists. eexists. split; [reflexivity|].
  apply parse_messageBody. exact Hascii.
Qed.

Lemma WriteJSONError_message_round_trip_witness :
  exists (code : Z) (body : bytes),
    WriteJSONError []
      (BadRequestError_error (mkBadRequest ("say " ++ quoted "a<b" ++ " & go")%string))
    = [jsonContentType; http.WriteHeader code; http.Write body]
    /\ json.parse body
       = Some (json.Object
                 [("message"%string, json.Str ("say " ++ quoted "a<b" ++ " & go")%string)]).
Proof.
  apply (WriteJSONError_message_round_trip []
           (BadRequestError_error (mkBadRequest ("say " ++ quoted "a<b" ++ " & go")%string))).
  reflexivity.
Defined.

(** ** Decimal numbers between the encoder and the decoder *)

Lemma digitsValue_acc : forall d a,
  json.digitsValue (Z.pos a) (digitsOf d) = Some (Z.pos (Pos.of_uint_acc d a)).
Proof.
  unfold digitsOf, bytes_of.
  induction d; intros a;
    cbn [NilEmpty.string_of_uint list_ascii_of_string json.digitsValue Pos.of_uint_acc];
    try reflexivity;
    change (json.isDigit _) with true; cbv iota;
    match goal with
    | IH : forall a, json.digitsValue _ _ = _
      |- json.digitsValue ?v _ = Some (Z.pos (Pos.of_uint_acc _ ?acc)) =>
        replace v with (Z.pos acc) by (vm_compute (Z.of_N _); lia); apply IH
    end.
Qed.

Lemma digitsValue_uint : forall d,
  json.digitsValue 0 (digitsOf d) = Some (Z.of_N (Pos.of_uint d)).
Proof.
  unfold digitsOf, bytes_of.
  induction d;
    cbn [NilEmpty.string_of_uint list_ascii_of_string json.digitsValue Pos.of_uint];
    try reflexivity;
    change (json.isDigit _) with true; cbv iota;
    try exact IHd;
    match goal with
    | |- json.digitsValue ?v _ = Some (Z.of_N (N.pos (Pos.of_uint_acc _ ?acc))) =>
        change v with (Z.pos acc); apply digitsValue_acc
    end.
Qed.

Lemma digitsOf_to_uint_value (p : positive) :
  json.digitsValue 0 (digitsOf (Pos.to_uint p)) = Some (Z.pos p).
Proof.
  rewrite digitsValue_uint, DecimalPos.Unsigned.of_to. reflexivity.
Qed.

Lemma nzhead_leads : forall d,
  Decimal.nzhead d = Decimal.Nil \/ leads (Decimal.nzhead d) = true.
Proof. induction d; cbn; auto. Qed.

Lemma to_uint_leads (p : positive) : leads (Pos.to_uint p) = true.
Proof.
  pose proof (DecimalPos.Unsigned.to_of (Pos.to_uint p)) as H.
  rewrite DecimalPos.Unsigned.of_to in H. cbn [N.to_uint] in H.
  pose proof (DecimalPos.Unsigned.to_uint_nonzero p) as Hnz.
  unfold Decimal.unorm in H.
  destruct (nzhead_leads (Pos.to_uint p)) as [Hnil|Hl].
  - rewrite Hnil in H. congruence.
  - destruct (Decimal.nzhead (Pos.to_uint p)) eqn:E; try discriminate;
      rewrite H; reflexivity.
Qed.

Lemma itoa_pos (p : positive) :
  bytes_of (json.itoa (Z.pos p)) = digitsOf (Pos.to_uint p).
Proof.
  unfold json.itoa, digitsOf. cbn [Z.to_int NilZero.string_of_int].
  pose proof (to_uint_leads p) as H.
  destruct (Pos.to_uint p); try discriminate; reflexivity.
Qed.

Lemma itoa_neg (p : positive) :
  bytes_of (json.itoa (Z.neg p)) = "-"%char :: digitsOf (Pos.to_uint p).
Proof.
  unfold json.itoa, digitsOf. cbn [Z.to_int NilZero.string_of_int].
  pose proof (to_uint_leads p) as H.
  destruct (Pos.to_uint p); try discriminate; reflexivity.
Qed.

Lemma ParseInt_digits (neg : bool) (d : Decimal.uint) (s : string) (v : Z) :
  leads d = true ->
  bytes_of s = (if neg then ["-"%char] else []) ++ digitsOf d ->
  json.digitsValue 0 (digitsOf d) = Some v ->
  int64 (if neg then - v else v) ->
  json.ParseInt s = Some (if neg then - v else v).
Proof.
  intros Hl Hs Hv [Hlo Hhi]. unfold json.ParseInt. rewrite Hs.
  assert (Hrange : (- 2 ^ 63 <=? (if neg then - v else v))
                   && ((if neg then - v else v) <? 2 ^ 63) = true).
  { apply andb_true_iff. split; [apply Z.leb_le|apply Z.ltb_lt]; assumption. }
  destruct neg; cbn [app].
  - destruct d; try discriminate; unfold digitsOf, bytes_of in *;
      cbn [NilEmpty.string_of_uint list_ascii_of_string] in *;
      rewrite Hv, Hrange; reflexivity.
  - destruct d; try discriminate; unfold digitsOf, bytes_of in *;
      cbn [NilEmpty.string_of_uint list_ascii_of_string] in *;
      rewrite Hv, Hrange; reflexivity.
Qed.

(** [strconv.ParseInt] undoes [strconv.AppendInt] on the values of a Go
    [int]. *)
Lemma ParseInt_itoa (z : Z) : int64 z -> json.ParseInt (json.itoa z) = Some z.
Proof.
  intros Hz. destruct z as [|p|p].
  - reflexivity.
  - apply (ParseInt_digits false (Pos.to_uint p) _ (Z.pos p));
      auto using to_uint_leads, itoa_pos, digitsOf_to_uint_value.
  - apply (ParseInt_digits true (Pos.to_uint p) _ (Z.pos p));
      auto using to_uint_leads, itoa_neg, digitsOf_to_uint_value.
Qed.

Lemma scan_digits : forall d ps,
  json.scanBuffer (scanning json.state1 ps) (digitsOf d)
  = json.NeedMore (scanning json.state1 ps).
Proof.
  unfold digitsOf, bytes_of.
  induction d; intros ps;
    cbn [NilEmpty.string_of_uint list_ascii_of_string]; try reflexivity;
    cbn [json.scanBuffer];
    match goal with
    | |- context [json.scan_step (scanning json.state1 ps) ?c] =>
        change (json.scan_step (scanning json.state1 ps) c)
          with (scanning json.state1 ps, json.scanContinue)
    end;
    cbv iota beta; rewrite IHd; reflexivity.
Qed.

(** The scanner at the beginning of a value reads the decimal text of an
    integer as one number literal and is then in a state that ends the
    literal at the next byte. *)
Lemma scan_itoa : forall z ps,
  exists st,
    (st = json.state0 \/ st = json.state1)
    /\ json.scanBuffer (scanning json.stateBeginValue ps) (bytes_of (json.itoa z))
       = json.NeedMore (scanning st ps).
Proof.
  intros z ps. destruct z as [|p|p].
  - exists json.state0. split; [left|]; reflexivity.
  - exists json.state1. split; [right; reflexivity|].
    rewrite itoa_pos. pose proof (to_uint_leads p) as Hl.
    pose proof (scan_digits) as Hd. unfold digitsOf, bytes_of in *.
    destruct (Pos.to_uint p); try discriminate;
      cbn [NilEmpty.string_of_uint list_ascii_of_string json.scanBuffer];
      match goal with
      | |- context [json.scan_step (scanning json.stateBeginValue ps) ?c] =>
          change (json.scan_step (scanning json.stateBeginValue ps) c)
            with (scanning json.state1 ps, json.scanBeginLiteral)
      end;
      cbv iota beta; rewrite Hd; reflexivity.
  - exists json.state1. split; [right; reflexivity|].
    rewrite itoa_neg. pose proof (to_uint_leads p) as Hl.
    pose proof (scan_digits) as Hd. unfold digitsOf, bytes_of in *.
    cbn [json.scanBuffer].
    change (json.scan_step (scanning json.stateBeginValue ps) "-")
      with (scanning json.stateNeg ps, json.scanBeginLiteral).
    cbv iota beta.
    destruct (Pos.to_uint p); try discriminate;
      cbn [NilEmpty.string_of_uint list_ascii_of_string json.scanBuffer];
      match goal with
      | |- context [json.scan_step (scanning json.stateNeg ps) ?c] =>
          change (json.scan_step (scanning json.stateNeg ps) c)
            with (scanning json.state1 ps, json.scanContinue)
      end;
      cbv iota beta; rewrite Hd; reflexivity.
Qed.

Lemma spanNumber_digits : forall d c tail,
  json.isNumberByte c = false ->
  json.spanNumber (digitsOf d ++ c :: tail) = (digitsOf d, c :: tail).
Proof.
  unfold digitsOf, bytes_of.
  induction d; intros c tail Hc;
    cbn [NilEmpty.string_of_uint list_ascii_of_string app json.spanNumber];
    try (rewrite Hc; reflexivity);
    change (json.isNumberByte _) with true; cbv iota;
    rewrite (IHd c tail Hc); reflexivity.
Qed.

Lemma digitsOf_all_number_bytes : forall d,
  Forall (fun c => json.isDigit c = true) (digitsOf d).
Proof.
  unfold digitsOf, bytes_of.
  induction d; cbn [NilEmpty.string_of_uint list_ascii_of_string];
    constructor; auto.
Qed.

Lemma spanNumber_itoa : forall z c tail,
  json.isNumberByte c = false ->
  json.spanNumber (bytes_of (json.itoa z) ++ c :: tail)
  = (bytes_of (json.itoa z), c :: tail).
Proof.
  intros z c tail Hc. destruct z as [|p|p].
  - cbn. rewrite Hc. reflexivity.
  - rewrite itoa_pos. apply spanNumber_digits. exact Hc.
  - rewrite itoa_neg. cbn [app json.spanNumber].
    change (json.isNumberByte "-") with true. cbv iota.
    rewrite (spanNumber_digits _ c tail Hc). reflexivity.
Qed.

Lemma parseValue_number : forall c0 rest fuel,
  c0 = "-"%char \/ json.isDigit c0 = true ->
  json.parseValue (S fuel) (c0 :: rest) =
    (let '(n, rest') := json.spanNumber (c0 :: rest) in
     Some (json.Number (string_of_list_ascii n), rest')).
Proof.
  intros c0 rest fuel H.
  destruct c0 as [[] [] [] [] [] [] [] []];
    try reflexivity;
    exfalso;
    (destruct H as [H|H]; [discriminate H|vm_compute in H; discriminate H]).
Qed.

Lemma itoa_head (z : Z) :
  exists c0 rest, bytes_of (json.itoa z) = c0 :: rest
                  /\ (c0 = "-"%char \/ json.isDigit c0 = true).
Proof.
  destruct z as [|p|p].
  - exists "0"%char, []. split; [reflexivity|right; reflexivity].
  - rewrite itoa_pos. pose proof (to_uint_leads p) as Hl.
    pose proof (digitsOf_all_number_bytes (Pos.to_uint p)) as Hall.
    destruct (digitsOf (Pos.to_uint p)) as [|c0 rest] eqn:E.
    + unfold digitsOf, bytes_of in E. destruct (Pos.to_uint p); discriminate.
    + inversion Hall; subst. eauto.
  - rewrite itoa_neg. eauto.
Qed.

Lemma parseValue_itoa : forall z c tail fuel,
  json.isNumberByte c = false ->
  json.parseValue (S fuel) (bytes_of (json.itoa z) ++ c :: tail)
  = Some (json.Number (json.itoa z), c :: tail).
Proof.
  intros z c tail fuel Hc.
  destruct (itoa_head z) as (c0 & rest & Hz & Hc0).
  pose proof (spanNumber_itoa z c tail Hc) as Hspan.
  rewrite Hz in *. cbn [app] in *.
  rewrite (parseValue_number c0 _ fuel Hc0), Hspan.
  rewrite <- Hz. unfold bytes_of. rewrite string_of_list_ascii_of_string.
  reflexivity.
Qed.

Lemma of_uint_acc_lower : forall d a,
  Z.pos a * 10 ^ Z.of_nat (length (digitsOf d)) <= Z.pos (Pos.of_uint_acc d a).
Proof.
  unfold digitsOf, bytes_of.
  induction d; intros a;
    cbn [NilEmpty.string_of_uint list_ascii_of_string length Pos.of_uint_acc];
    [cbn; lia|..];
    rewrite Nat2Z.inj_succ, Z.pow_succ_r by lia;
    match goal with
    | |- _ <= Z.pos (Pos.of_uint_acc _ ?acc) =>
        specialize (IHd acc);
        assert (Z.pos a * 10 <= Z.pos acc) by lia
    end;
    match goal with
    | |- context [10 ^ ?e] => assert (0 < 10 ^ e) by (apply Z.pow_pos_nonneg; lia)
    end; nia.
Qed.

Lemma length_digits_to_uint (p : positive) :
  Z.pos p <= 2 ^ 63 -> (length (digitsOf (Pos.to_uint p)) <= 19)%nat.
Proof.
  intros Hp.
  pose proof (to_uint_leads p) as Hl.
  pose proof (DecimalPos.Unsigned.of_to p) as Hof.
  assert (Hlow : forall l k,
            Pos.of_uint_acc l k = p -> (length (digitsOf l) <= 18)%nat).
  { intros l k E. pose proof (of_uint_acc_lower l k) as H. rewrite E in H.
    destruct (Nat.le_gt_cases (length (digitsOf l)) 18) as [|Hbig]; [assumption|].
    assert (10 ^ 19 <= 10 ^ Z.of_nat (length (digitsOf l)))
      by (apply Z.pow_le_mono_r; lia).
    assert (10 ^ 19 > 2 ^ 63) by reflexivity. nia. }
  unfold digitsOf, bytes_of in *.
  destruct (Pos.to_uint p) as [|l|l|l|l|l|l|l|l|l|l]; try discriminate;
    cbn [Pos.of_uint] in Hof; injection Hof as Hof;
    apply Hlow in Hof;
    cbn [NilEmpty.string_of_uint list_ascii_of_string length]; lia.
Qed.

Lemma length_itoa (z : Z) : int64 z -> (length (bytes_of (json.itoa z)) <= 20)%nat.
Proof.
  intros [Hlo Hhi]. destruct z as [|p|p].
  - cbn. lia.
  - rewrite itoa_pos. pose proof (length_digits_to_uint p). lia.
  - rewrite itoa_neg. pose proof (length_digits_to_uint p). cbn [length]. lia.
Qed.

(** ** The request of the add handler, for all integers *)

Lemma addText_shape (a b : Z) :
  addText a b =
  "{"%char :: dquote :: flat_map printByte ["a"%char]
  ++ dquote :: ":"%char :: bytes_of (json.itoa a)
  ++ ","%char :: dquote :: flat_map printByte ["b"%char]
  ++ dquote :: ":"%char :: bytes_of (json.itoa b) ++ ["}"%char].
Proof.
  unfold addText.
  change (bytes_of ("{" ++ quoted "a" ++ ":")%string)
    with ["{"%char; dquote; "a"%char; dquote; ":"%char].
  change (bytes_of ("," ++ quoted "b" ++ ":")%string)
    with [","%char; dquote; "b"%char; dquote; ":"%char].
  change (flat_map printByte ["a"%char]) with ["a"%char].
  change (flat_map printByte ["b"%char]) with ["b"%char].
  cbn [app]. rewrite <- ?app_assoc. reflexivity.
Qed.

Lemma length_addText (a b : Z) :
  int64 a -> int64 b -> (length (addText a b) <= 51)%nat.
Proof.
  intros Ha Hb. unfold addText. rewrite !length_app.
  pose proof (length_itoa a Ha). pose proof (length_itoa b Hb).
  cbn [length bytes_of list_ascii_of_string quoted String.append] in *. 
  change (length (bytes_of ("{" ++ quoted "a" ++ ":")%string)) with 5%nat.
  change (length (bytes_of ("," ++ quoted "b" ++ ":")%string)) with 5%nat.
  lia.
Qed.

Lemma addText_scans (a b : Z) :
  json.scanBuffer json.reset (addText a b) = json.ValueEnds (length (addText a b)).
Proof.
  unfold addText.
  destruct (scan_itoa a [json.parseObjectValue]) as (sa & Hsa & Ha).
  destruct (scan_itoa b [json.parseObjectValue]) as (sb & Hsb & Hb).
  rewrite scanBuffer_app.
  change (json.scanBuffer json.reset (bytes_of ("{" ++ quoted "a" ++ ":")%string))
    with (json.NeedMore (scanning json.stateBeginValue [json.parseObjectValue])).
  cbn [offset]. rewrite scanBuffer_app, Ha. cbn [offset].
  rewrite scanBuffer_app.
  assert (Hmid : json.scanBuffer (scanning sa [json.parseObjectValue])
                   (bytes_of ("," ++ quoted "b" ++ ":")%string)
                 = json.NeedMore (scanning json.stateBeginValue [json.parseObjectValue])).
  { destruct Hsa as [->| ->]; reflexivity. }
  rewrite Hmid. cbn [offset]. rewrite scanBuffer_app, Hb. cbn [offset].
  assert (Hend : json.scanBuffer (scanning sb [json.parseObjectValue]) (bytes_of "}")
                 = json.ValueEnds 1).
  { destruct Hsb as [->| ->]; reflexivity. }
  rewrite Hend. cbn [offset]. f_equal. rewrite !length_app.
  change (length (bytes_of "}")) with 1%nat. lia.
Qed.

Lemma skipSpace_head (c : ascii) (rest : bytes) :
  json.isSpace c = false -> json.skipSpace (c :: rest) = c :: rest.
Proof. intros H. cbn [json.skipSpace]. rewrite H. reflexivity. Qed.

Lemma parse_addText (a b : Z) :
  json.parse (addText a b)
  = Some (json.Object [("a"%string, json.Number (json.itoa a));
                       ("b"%string, json.Number (json.itoa b))]).
Proof.
  unfold json.parse. rewrite addText_shape.
  match goal with
  | |- context [json.parseValue (S (length ?t)) ?t] =>
      assert (Hlen : exists fuel, length t = S (S (S (S fuel))))
        by (cbn [length app flat_map]; rewrite !length_app; cbn [length];
            eexists; rewrite <- !plus_n_Sm; reflexivity)
  end.
  destruct Hlen as [fuel ->].
  rewrite parseValue_object_key, parseMembers_key.
  rewrite unquote_printed_enough by (repeat constructor).
  rewrite skipSpace_head by reflexivity. cbv iota beta.
  rewrite parseValue_itoa by reflexivity. cbv iota beta zeta.
  rewrite skipSpace_head by reflexivity. cbv iota beta.
  rewrite parseMembers_key.
  rewrite unquote_printed_enough by (repeat constructor).
  rewrite skipSpace_head by reflexivity. cbv iota beta.
  rewrite parseValue_itoa by reflexivity. cbv iota beta zeta.
  rewrite skipSpace_head by reflexivity. cbv iota beta.
  reflexivity.
Qed.

Lemma unmarshalInto_addText (a b : Z) :
  int64 a -> int64 b ->
  json.unmarshalInto (addText a b) (mkAddRequest 0 0) = (mkAddRequest a b, None).
Proof.
  intros Ha Hb. cbn [json.unmarshalInto addRequest_Unmarshaler].
  rewrite parse_addText. cbn [storeMembers].
  change (selects "a" "a") with true. change (selects "b" "a") with false.
  change (selects "b" "b") with true. cbv iota.
  cbn [storeInt A B]. rewrite (ParseInt_itoa a Ha). cbn [saveError A B].
  rewrite (ParseInt_itoa b Hb). reflexivity.
Qed.

(** X10: for all integers a and b of a Go int, a request whose body is
    the object {"a":a,"b":b} written in decimal is decoded to exactly
    these two fields, and the add handler answers with status 200 and the
    body {"result":s} where s is the sum in 64-bit two's complement; the
    number printed in the result reads back as s. *)
Theorem addHandler_adds :
  forall (w : http.ResponseWriter) (r : http.Request) (a b : Z),
  int64 a -> int64 b ->
  http.content (http.Body r) = addText a b ->
  req_Data (NewRequest (T:=addRequest) r) = Some (mkAddRequest a b)
  /\ addHandler w r =
       Returned (w ++ [jsonContentType; http.WriteHeader 200;
                       http.Write (resultBody (wrap64 (a + b)))])
  /\ json.ParseInt (json.itoa (wrap64 (a + b))) = Some (wrap64 (a + b))
  /\ (int64 (a + b) -> wrap64 (a + b) = a + b).
Proof.
  intros w r a b Ha Hb Hbody.
  destruct (NewRequest_spec (T:=addRequest) r) as (b1 & c1 & rest1 & Hreq & _ & _).
  assert (Hseen : seen r = addText a b).
  { rewrite seen_short; [exact Hbody|]. rewrite Hbody.
    pose proof (length_addText a b Ha Hb). lia. }
  assert (Hd : decodeData (T:=addRequest) (seen r) = Some (mkAddRequest a b)).
  { rewrite Hseen. unfold decodeData.
    rewrite <- (app_nil_r (addText a b)) at 1.
    rewrite (scanContent_complete_prefix _ [] (addText_scans a b)).
    rewrite firstn_all. unfold json.unmarshal.
    replace (json.isNull (addText a b)) with false
      by (rewrite addText_shape; reflexivity).
    cbn [json.zero addRequest_Unmarshaler].
    change (json.unmarshalInto (addText a b) (mkAddRequest 0 0))
      with (json.unmarshalInto (T:=addRequest) (addText a b) (mkAddRequest 0 0)).
    rewrite (unmarshalInto_addText a b Ha Hb). reflexivity. }
  rewrite Hd in Hreq.
  split; [rewrite Hreq; reflexivity|].
  split.
  { unfold addHandler, JSON. rewrite Hreq.
    rewrite (add_sum w _ (mkAddRequest a b)) by reflexivity. reflexivity. }
  split.
  - apply ParseInt_itoa. apply wrap64_range.
  - apply wrap64_small.
Qed.

Lemma addHandler_adds_witness :
  addHandler [] (post "/add" (addText 1 9223372036854775807)) =
    Returned [jsonContentType; http.WriteHeader 200;
              http.Write (resultBody (-9223372036854775808))].
Proof.
  destruct (addHandler_adds [] (post "/add" (addText 1 9223372036854775807))
              1 9223372036854775807) as (_ & Hadd & _).
  - unfold int64. lia.
  - unfold int64. lia.
  - vm_compute. reflexivity.
  - rewrite Hadd. reflexivity.
Defined.

Lemma resultBody_shape (n : Z) :
  resultBody n =
  "{"%char :: dquote :: flat_map printByte (bytes_of "result")
  ++ dquote :: ":"%char :: bytes_of (json.itoa n) ++ ["}"%char; newline].
Proof.
  unfold resultBody.
  change (bytes_of ("{" ++ quoted "result" ++ ":")%string)
    with ("{"%char :: dquote :: flat_map printByte (bytes_of "result")
          ++ [dquote; ":"%char]).
  cbn [app]. rewrite <- ?app_assoc. reflexivity.
Qed.

Lemma parse_resultBody (n : Z) :
  json.parse (resultBody n)
  = Some (json.Object [("result"%string, json.Number (json.itoa n))]).
Proof.
  unfold json.parse. rewrite resultBody_shape.
  match goal with
  | |- context [json.parseValue (S (length ?t)) ?t] =>
      assert (Hlen : exists fuel, length t = S (S (S fuel)))
        by (cbn [length app flat_map]; eexists; reflexivity)
  end.
  destruct Hlen as [fuel ->].
  rewrite parseValue_object_key, parseMembers_key.
  rewrite unquote_printed_enough by (repeat constructor).
  rewrite skipSpace_head by reflexivity. cbv iota beta.
  rewrite parseValue_itoa by reflexivity. cbv iota beta zeta.
  rewrite skipSpace_head by reflexivity. cbv iota beta.
  reflexivity.
Qed.

(** X11: whenever the add handler gets a payload, the body it writes reads
    back as an object with the single member "result" whose number is the
    sum in 64-bit two's complement: what the encoder prints for the
    response, the decoder of a client reads as the same integer. *)
Theorem addHandler_result_round_trip :
  forall (w : http.ResponseWriter) (r : http.Request) (data : addRequest),
  req_Data (NewRequest (T:=addRequest) r) = Some data ->
  exists (body : bytes) (literal : string),
    addHandler w r =
      Returned (w ++ [jsonContentType; http.WriteHeader 200; http.Write body])
    /\ json.parse body = Some (json.Object [("result"%string, json.Number literal)])
    /\ json.ParseInt literal = Some (wrap64 (A data + B data)).
Proof.
  intros w r data Hd.
  exists (resultBody (wrap64 (A data + B data))),
         (json.itoa (wrap64 (A data + B data))).
  split; [|split].
  - unfold addHandler, JSON. apply add_sum. exact Hd.
  - apply parse_resultBody.
  - apply ParseInt_itoa. apply wrap64_range.
Qed.

Lemma addHandler_result_round_trip_witness :
  exists (body : bytes) (literal : string),
    addHandler [] (post "/add" onePlusTwo) =
      Returned [jsonContentType; http.WriteHeader 200; http.Write body]
    /\ json.parse body = Some (json.Object [("result"%string, json.Number literal)])
    /\ json.ParseInt literal = Some 3.
Proof.
  apply (addHandler_result_round_trip [] (post "/add" onePlusTwo) (mkAddRequest 1 2)).
  vm_compute. reflexivity.
Defined.

(** ** When the payload is nil *)

(** X12: for every payload type, the payload of the envelope is nil in
    exactly two cases: the first 2^20 bytes of the body hold no complete
    JSON value (the decoder's read fails), or the value they begin with
    is null.  In every other case, a value of the wrong type included,
    the payload is allocated. *)
Theorem NewRequest_payload_nil_iff :
  forall (R : Type) (UR : json.Unmarshaler R) (r : http.Request),
  req_Data (NewRequest (T:=R) r) = None <->
  ((exists e, scanContent (seen r) = json.ReadFails e)
   \/ (exists n, scanContent (seen r) = json.ValueOfLength n
                 /\ json.isNull (firstn n (seen r)) = true)).
Proof.
  intros R UR r.
  destruct (NewRequest_spec (T:=R) r) as (b1 & c1 & rest1 & Hreq & _ & _).
  rewrite Hreq. cbn [req_Data]. unfold decodeData, json.unmarshal.
  destruct (scanContent (seen r)) as [n|e].
  - destruct (json.isNull (firstn n (seen r))) eqn:Hnull.
    + split; [intros _; right; eauto|reflexivity].
    + destruct (json.unmarshalInto (firstn n (seen r)) json.zero) as [v e'].
      cbn [fst]. split; [discriminate|].
      intros [[e He]|(k & Hk & Hn)]; [discriminate|].
      injection Hk as <-. congruence.
  - split; [eauto|reflexivity].
Qed.

(** ** The limit of 2^20 bytes, at its boundary *)

Lemma opensComposite_app (s rest : bytes) :
  opensComposite (s ++ rest) = true ->
  opensComposite s = true \/ json.nonSpace s = false.
Proof.
  unfold opensComposite, json.nonSpace.
  induction s as [|c s IH]; intros H; [right; reflexivity|].
  cbn [app json.skipSpace existsb] in *.
  destruct (json.isSpace c); cbn [negb orb]; auto.
Qed.

(** X13: a body that is one complete JSON object or array longer than
    2^20 bytes is never decoded: the limited reader cuts it short, the
    decoder's read fails and the payload stays nil, however the value
    would decode. *)
Theorem NewRequest_rejects_oversize :
  forall (R : Type) (UR : json.Unmarshaler R) (r : http.Request),
  opensComposite (http.content (http.Body r)) = true ->
  json.scanBuffer json.reset (http.content (http.Body r))
    = json.ValueEnds (length (http.content (http.Body r))) ->
  2 ^ 20 < Z.of_nat (length (http.content (http.Body r))) ->
  req_Data (NewRequest (T:=R) r) = None.
Proof.
  intros R UR r Hopen Hscan Hlong.
  destruct (NewRequest_spec (T:=R) r) as (b1 & c1 & rest1 & Hreq & _ & _).
  rewrite Hreq. cbn [req_Data]. unfold decodeData.
  set (text := http.content (http.Body r)) in *.
  assert (Hsplit : text = seen r ++ skipn (Z.to_nat (Z.shiftl 1 20)) text).
  { unfold seen, limited. fold text. symmetry. apply firstn_skipn. }
  assert (Hrest : skipn (Z.to_nat (Z.shiftl 1 20)) text <> []).
  { intros E. apply (f_equal (@length ascii)) in E.
    rewrite length_skipn in E. cbn [length] in E.
    change (Z.shiftl 1 20) with (2 ^ 20) in E. lia. }
  assert (Hfail : exists e, scanContent (seen r) = json.ReadFails e).
  { rewrite Hsplit in Hopen.
    destruct (opensComposite_app _ _ Hopen) as [Ho|Hblank].
    - eexists. apply (cut_composite _ _ Hrest Ho). rewrite <- Hsplit. exact Hscan.
    - eexists. apply scanContent_blank. exact Hblank. }
  destruct Hfail as [e ->]. reflexivity.
Qed.

Lemma skipSpace_repeat_space (n : nat) (rest : bytes) :
  json.skipSpace (repeat " "%char n ++ rest) = json.skipSpace rest.
Proof. induction n; [reflexivity|exact IHn]. Qed.

Lemma spaces_then_request (n : nat) :
  let text := repeat " "%char n ++ onePlusTwo in
  opensComposite text = true
  /\ json.scanBuffer json.reset text = json.ValueEnds (length text)
  /\ Z.of_nat n < Z.of_nat (length text).
Proof.
  cbv zeta. split; [|split].
  - unfold opensComposite. rewrite skipSpace_repeat_space. reflexivity.
  - rewrite scanBuffer_app, (scanBuffer_blank _ (nonSpace_repeat_space n)).
    change (json.scanBuffer json.reset onePlusTwo) with (json.ValueEnds 13).
    cbn [offset]. rewrite length_app. reflexivity.
  - rewrite length_app, repeat_length.
    change (length onePlusTwo) with 13%nat. lia.
Qed.

Lemma content_post (url : string) (body : bytes) :
  http.content (http.Body (post url body)) = body.
Proof.
  unfold post, http.content. cbn [http.Body http.pending concat]. apply app_nil_r.
Qed.

Lemma NewRequest_rejects_oversize_witness :
  req_Data (NewRequest (T:=addRequest) (post "/add" padded)) = None.
Proof.
  destruct (spaces_then_request (Z.to_nat (Z.shiftl 1 20))) as (Hopen & Hscan & Hlong).
  apply (NewRequest_rejects_oversize addRequest _ (post "/add" padded));
    rewrite content_post.
  - exact Hopen.
  - exact Hscan.
  - exact Hlong.
Defined.

(** ** The response as the client observes it *)





(** ** The encoder's loop has fuel enough *)

Lemma DecodeRune_width : forall c rest rune size,
  utf8.DecodeRune (c :: rest) = (rune, size) ->
  (1 <= size <= length (c :: rest))%nat.
Proof.
  intros c rest rune size H.
  destruct (N_of_ascii c <? 128)%N eqn:Hc.
  - unfold utf8.DecodeRune in H. rewrite Hc in H. injection H as <- <-.
    cbn [length]. lia.
  - apply N.ltb_ge in Hc.
    destruct (DecodeRune_high _ _ _ _ Hc H) as [[_ ->]|(Hs & Hl & _)];
      cbn [length] in *; lia.
Qed.

Lemma appendString_loop_fuel : forall f1 f2 src,
  (length src <= f1)%nat -> (length src <= f2)%nat ->
  json.appendString_loop f1 src = json.appendString_loop f2 src.
Proof.
  induction f1 as [|f1 IH]; intros f2 src H1 H2.
  - destruct src; [destruct f2; reflexivity|simpl in H1; lia].
  - destruct src as [|c rest]; [destruct f2; reflexivity|].
    destruct f2 as [|f2]; [simpl in H2; lia|].
    cbn [json.appendString_loop]. cbn [length] in H1, H2.
    destruct (N_of_ascii c <? 128)%N.
    + rewrite (IH f2 rest) by lia. reflexivity.
    + destruct (utf8.DecodeRune (firstn 4 (c :: rest))) as [rune size] eqn:Hrune.
      change (firstn 4 (c :: rest)) with (c :: firstn 3 rest) in Hrune.
      apply DecodeRune_width in Hrune.
      assert (Hskip : (length (skipn size (c :: rest)) <= length rest)%nat)
        by (rewrite length_skipn; cbn [length]; lia).
      rewrite (IH f2 rest) by lia.
      rewrite (IH f2 (skipn size (c :: rest))) by lia.
      reflexivity.
Qed.

(** ** What NewRequest leaves in the body stream *)


